(** * ble-parser: the AD scanner and the H4 Pro frame decoders

    A shallow embedding of [extractServiceData16] (ble_ad.go) and of
    [ParseH4ProToOutput], [u16be], [i16be], [buildTH] and [buildInfo]
    (decoders/moko_h4pro.go), with the properties of the specification
    stated and proved over it.

    Conventions of the embedding.
    - A Go [string] is a sequence of bytes: [string] of 8-bit [ascii].
    - A [[]byte] is a [list byte]; a nil slice and an empty slice are both
      [[]] (the code only takes [len] of them and indexes them).
    - A Go [int] (64 bits) is a [Z]; every value computed here stays far
      below 2^63, the 16-bit wrap-around of [int16] is written out.
    - A [float64] is a primitive IEEE 754 binary64 [float].
    - Indexing and slicing out of range panic in Go: [idx] and [slice]
      return [None] there, and a function that can index returns an
      [option]; [None] is a run-time panic.
    - [log.Printf] only observes; it is left out.
    - The Go library functions the code calls ([strings.TrimSpace],
      [hex.DecodeString], the [fmt] verbs used) are modelled on byte
      strings; of [strings.ToUpper] only the Unicode case tables are left
      open, as the parameter [unicode_ToUpper] of the development. *)

From Equations Require Import Equations.
From Stdlib Require Import ZArith NArith Lia Bool Ascii String List.
From Stdlib.Strings Require Import Byte.
From Stdlib Require Import DecimalString Floats.
From stdpp Require Import base option list gmap strings fin_maps.
Import ListNotations.

Local Open Scope string_scope.
Local Open Scope Z_scope.

(** ** Bytes, indexing and slicing *)

Module GoBytes.

(** [int(b)] for a byte [b]. *)
Definition int (b : byte) : Z := Z.of_N (Byte.to_N b).

(** The byte of value [n mod 256]. *)
Definition byte_of_N (n : N) : byte :=
  match Byte.of_N (n mod 256) with
  | Some b => b
  | None => x00
  end.

(** [len(b)]. *)
Definition len {A} (l : list A) : Z := Z.of_nat (length l).

(** [b[i]]: [None] is the index-out-of-range panic. *)
Definition idx {A} (l : list A) (i : Z) : option A :=
  if i <? 0 then None else l !! Z.to_nat i.

(** [b[lo:hi]]: [None] is the slice-bounds panic. *)
Definition slice {A} (l : list A) (lo hi : Z) : option (list A) :=
  if (0 <=? lo) && (lo <=? hi) && (hi <=? len l)
  then Some (take (Z.to_nat (hi - lo)) (drop (Z.to_nat lo) l))
  else None.

End GoBytes.
Import GoBytes.

(** ** The Go library functions the code calls *)

Module GoLib.

(** The byte values of a string. *)
Definition codes (s : string) : list N := map N_of_ascii (list_ascii_of_string s).
Definition of_codes (l : list N) : string :=
  string_of_list_ascii (map ascii_of_N l).

(** *** strings.TrimSpace

    Leading and trailing Unicode white space is removed.  White space is
    one of the six ASCII characters of [asciiSpace], or the UTF-8
    encoding of U+0085, U+00A0, U+1680, U+2000..U+200A, U+2028, U+2029,
    U+202F, U+205F or U+3000; any other byte sequence, valid UTF-8 or
    not, decodes to a rune that is not white space and stops the trim. *)
Definition asciiSpace (c : N) : bool :=
  ((9 <=? c) && (c <=? 13) || (c =? 32))%N.

Definition space2 (a b : N) : bool :=
  ((a =? 0xC2) && ((b =? 0x85) || (b =? 0xA0)))%N.

Definition space3 (a b c : N) : bool :=
  ((a =? 0xE1) && (b =? 0x9A) && (c =? 0x80)
   || (a =? 0xE2) && (b =? 0x80)
      && ((0x80 <=? c) && (c <=? 0x8A) || (c =? 0xA8) || (c =? 0xA9) || (c =? 0xAF))
   || (a =? 0xE2) && (b =? 0x81) && (c =? 0x9F)
   || (a =? 0xE3) && (b =? 0x80) && (c =? 0x80))%N.

Fixpoint trimLeft (s : list N) : list N :=
  match s with
  | [] => []
  | a :: r1 =>
      if asciiSpace a then trimLeft r1 else
      match r1 with
      | [] => s
      | b :: r2 =>
          if space2 a b then trimLeft r2 else
          match r2 with
          | [] => s
          | c :: r3 => if space3 a b c then trimLeft r3 else s
          end
      end
  end.

(** The same from the end, on the reversed string. *)
Fixpoint trimLeftRev (s : list N) : list N :=
  match s with
  | [] => []
  | c :: r1 =>
      if asciiSpace c then trimLeftRev r1 else
      match r1 with
      | [] => s
      | b :: r2 =>
          if space2 b c then trimLeftRev r2 else
          match r2 with
          | [] => s
          | a :: r3 => if space3 a b c then trimLeftRev r3 else s
          end
      end
  end.

Definition strings_TrimSpace (s : string) : string :=
  of_codes (rev (trimLeftRev (rev (trimLeft (codes s))))).

(** *** hex.DecodeString

    [None] stands for a non-nil error ([InvalidByteError] or
    [ErrLength]); the callers only test [err != nil]. *)
Definition fromHexChar (c : N) : option N :=
  (if (48 <=? c) && (c <=? 57) then Some (c - 48)
   else if (97 <=? c) && (c <=? 102) then Some (c - 97 + 10)
   else if (65 <=? c) && (c <=? 70) then Some (c - 65 + 10)
   else None)%N.

Fixpoint hex_Decode (src : list N) : option (list byte) :=
  match src with
  | [] => Some []
  | [_] => None
  | p :: q :: src' =>
      match fromHexChar p, fromHexChar q with
      | Some a, Some b =>
          match hex_Decode src' with
          | Some dst => Some (byte_of_N (a * 16 + b) :: dst)
          | None => None
          end
      | _, _ => None
      end
  end.

Definition hex_DecodeString (s : string) : option (list byte) :=
  hex_Decode (codes s).

(** *** hex.EncodeToString: two lower-case digits a byte. *)
Definition lowerhex (d : N) : N :=
  (if d <? 10 then 48 + d else 97 + (d - 10))%N.

Definition hex_Encode (src : list byte) : list N :=
  flat_map (fun b => [lowerhex (Byte.to_N b / 16); lowerhex (Byte.to_N b mod 16)])
    src.

Definition hex_EncodeToString (src : list byte) : string :=
  of_codes (hex_Encode src).

(** *** fmt verbs *)

(** One upper-case hexadecimal digit. *)
Definition upperhex (d : Z) : ascii :=
  ascii_of_N (Z.to_N (if d <? 10 then 48 + d else 65 + (d - 10))).

(** [%02X] of a byte: exactly two digits. *)
Definition fmt_02X (b : byte) : string :=
  String (upperhex (int b / 16)) (String (upperhex (int b mod 16)) "").

(** [%08b] of a byte value: eight binary digits, most significant first. *)
Definition bit_char (v : Z) (k : Z) : ascii :=
  if Z.testbit v k then "1"%char else "0"%char.

Definition fmt_08b (v : Z) : string :=
  string_of_list_ascii (map (bit_char v) [7; 6; 5; 4; 3; 2; 1; 0]).

(** [%d] of an int. *)
Definition fmt_d (v : Z) : string := NilZero.string_of_int (Z.to_int v).

(** *** strings.ToUpper, the part for all-ASCII strings *)

Definition isASCII (s : string) : bool :=
  forallb (fun c => (c <? 128)%N) (codes s).

Definition upper_byte (c : N) : N :=
  (if (97 <=? c) && (c <=? 122) then c - 32 else c)%N.

End GoLib.
Import GoLib.

(** ** Values of the output map *)

(** The dynamic values ([any]) the decoders store, by their Go type. *)
Inductive any : Type :=
| AString (s : string)
| AInt (n : Z)
| AInt64 (n : Z)
| AFloat64 (f : float).

(** A Go [error]: [None] is [nil], [Some msg] an error of text [msg]. *)
Definition error : Type := option string.

(** Sequencing of steps that may panic. *)
Notation "'let*' x := a 'in' b" :=
  (match a with Some x => b | None => None end)
  (at level 10, x pattern, a at level 100, b at level 200, only parsing).

Module GoNum.

(** Conversion of a 64-bit integer to [int16]: the low 16 bits, signed. *)
Definition int16 (z : Z) : Z := (z + 32768) mod 65536 - 32768.

(** [float64(v)] for an int [v]; exact below 2^53 in absolute value. *)
Definition float64 (v : Z) : float :=
  if v <? 0 then PrimFloat.opp (PrimFloat.of_uint63 (Uint63.of_Z (- v)))
  else PrimFloat.of_uint63 (Uint63.of_Z v).

End GoNum.
Import GoNum.

(** ** strings.ToUpper

    Go maps an all-ASCII string byte by byte ([a]..[z] to [A]..[Z]) and
    hands any other string to [Map(unicode.ToUpper, s)].  The Unicode case
    tables are not part of this repository: the slow path is a parameter
    of the development. *)

Section Parser.

Variable unicode_ToUpper : string -> string.

Definition strings_ToUpper (s : string) : string :=
  if isASCII s then of_codes (map upper_byte (codes s))
  else unicode_ToUpper s.

(** ** ble_ad.go *)

(** The four results of [extractServiceData16]. *)
Definition ServiceData16 : Type := string * byte * list byte * bool.

Definition notFound : ServiceData16 := ("", x00, [], false).

(** The [for i < len(raw)] loop, from offset [i]. *)
Equations? scanAD (raw : list byte) (i : Z) : option ServiceData16
  by wf (Z.to_nat (len raw - i)) lt :=
scanAD raw i with Z_lt_dec i (len raw) := {
  | right _ => Some notFound
  | left _ =>
      if i + 1 >=? len raw then Some notFound else
      match idx raw i with
      | None => None
      | Some lb =>
          let length := int lb in
          if (length =? 0) || (i + 1 + length >? len raw) then Some notFound else
          match idx raw (i + 1) with
          | None => None
          | Some typ =>
              if Byte.eqb typ x16 then
                if length <? 4 then Some notFound else
                match idx raw (i + 2), idx raw (i + 3), slice raw (i + 4) (i + 1 + length) with
                | Some lsb, Some msb, Some data =>
                    let uuidText := strings_ToUpper (fmt_02X msb ++ fmt_02X lsb) in
                    match data with
                    | [] => Some (uuidText, x00, [], true)
                    | frameType :: rest => Some (uuidText, frameType, rest, true)
                    end
                | _, _, _ => None
                end
              else scanAD raw (i + 1 + length)
          end
      end }.
Proof.
  assert (0 <= int lb) by (unfold int; lia).
  unfold length. lia.
Qed.

Definition extractServiceData16 (payloadHex : string) : option ServiceData16 :=
  match hex_DecodeString (strings_TrimSpace payloadHex) with
  | None => Some notFound
  | Some raw =>
      if len raw =? 0 then Some notFound else scanAD raw 0
  end.

(** ** decoders/moko_h4pro.go *)

(** [u16be(b, off)]: the value, the flag, and the new [*off]. *)
Definition u16be (b : list byte) (off : Z) : option (Z * bool * Z) :=
  if len b <? off + 2 then Some (0, false, off) else
  let* b0 := idx b off in
  let* b1 := idx b (off + 1) in
  let v := Z.lor (Z.shiftl (int b0) 8) (int b1) in
  Some (v, true, off + 2).

(** [i16be(b, off)]: the shift is on [int16] operands, so it wraps to 16
    bits before the or. *)
Definition i16be (b : list byte) (off : Z) : option (Z * bool * Z) :=
  if len b <? off + 2 then Some (0, false, off) else
  let* b0 := idx b off in
  let* b1 := idx b (off + 1) in
  let v := Z.lor (int16 (Z.shiftl (int b0) 8)) (int b1) in
  Some (v, true, off + 2).

Definition buildTH (ts : Z) (mac deviceName : string) (rssi : option Z)
    (p : list byte) : option (option (gmap string any) * error) :=
  let out : gmap string any :=
    <["device_name" := AString deviceName]>
      (<["mac" := AString (strings_ToUpper mac)]>
         (<["timestamp" := AInt64 ts]>
            {["message_type" := AString "h4pro-t&h"]})) in
  let out := match rssi with Some r => <["rssi" := AInt r]> out | None => out end in
  let off := 0 in
  (* Ranging (1) *)
  let off := if len p >=? off + 1 then off + 1 else off in
  (* Adv interval (1) *)
  let* (off, out) :=
    (if len p >=? off + 1 then
       let* b := idx p off in
       let steps := int b in
       Some (off + 1,
             <["adv_interval_ms" := AInt (steps * 100)]>
               (<["adv_interval_steps" := AInt steps]> out))
     else Some (off, out)) in
  (* Temp i16 (/10) *)
  let* (v, ok, off) := i16be p off in
  let out := if ok then <["temperature" := AFloat64 (float64 v / 10)%float]> out else out in
  (* Humidity u16 (/10) *)
  let* (v, ok, off) := u16be p off in
  let out := if ok then <["humidity" := AFloat64 (float64 v / 10)%float]> out else out in
  (* Battery mV u16 *)
  let* (v, ok, off) := u16be p off in
  let out := if ok then <["batt_vol" := AInt v]> out else out in
  (* Device type (1) *)
  let* (off, out) :=
    (if len p >=? off + 1 then
       let* b := idx p off in
       Some (off + 1, <["device_type" := AInt (int b)]> out)
     else Some (off, out)) in
  (* MAC in frame (6): sliced, hex-encoded, dropped *)
  let* _ := (if len p >=? off + 6 then slice p off (off + 6) else Some []) in
  let off := if len p - off >? 0 then off + 6 else off in
  Some (Some out, None).

Definition buildInfo (ts : Z) (mac deviceName : string) (rssi : option Z)
    (p : list byte) : option (option (gmap string any) * error) :=
  let out : gmap string any :=
    <["device_name" := AString deviceName]>
      (<["mac" := AString (strings_ToUpper mac)]>
         (<["timestamp" := AInt64 ts]>
            {["message_type" := AString "h4pro-info"]})) in
  let out := match rssi with Some r => <["rssi" := AInt r]> out | None => out end in
  let off := 0 in
  (* Ranging (1) *)
  let off := if len p >=? off + 1 then off + 1 else off in
  (* Adv interval (1) *)
  let* (off, out) :=
    (if len p >=? off + 1 then
       let* b := idx p off in
       let steps := int b in
       Some (off + 1,
             <["adv_interval_ms" := AInt (steps * 100)]>
               (<["adv_interval_steps" := AInt steps]> out))
     else Some (off, out)) in
  (* Battery mV (u16) *)
  let* (v, ok, off) := u16be p off in
  let out := if ok then <["batt_vol" := AInt v]> out else out in
  (* Device property indicator (1) *)
  let* (off, out) :=
    (if len p >=? off + 1 then
       let* b := idx p off in
       let val := int b in
       Some (off + 1,
             <["device_prop_bits" := AString (fmt_08b val)]>
               (<["device_prop" := AInt val]> out))
     else Some (off, out)) in
  (* Switch status indicator (1) *)
  let* (off, out) :=
    (if len p >=? off + 1 then
       let* b := idx p off in
       let val := int b in
       Some (off + 1,
             <["switch_status_bits" := AString (fmt_08b val)]>
               (<["switch_status" := AInt val]> out))
     else Some (off, out)) in
  (* MAC in frame (6) *)
  let off := if len p >=? off + 6 then off + 6 else off in
  (* Firmware version (u16) *)
  let* (v, ok, off) := u16be p off in
  let out := if ok then <["firmware_ver" := AString ("V0.0." ++ fmt_d v)]> out else out in
  Some (Some out, None).

Definition ParseH4ProToOutput (frameType : byte) (p : list byte) (ts : Z)
    (mac deviceName : string) (rssi : option Z)
    : option (option (gmap string any) * error) :=
  if Byte.eqb frameType x70 then buildTH ts mac deviceName rssi p
  else if Byte.eqb frameType x40 then buildInfo ts mac deviceName rssi p
  else Some (None, Some ("unknown H4 Pro frame_type 0x" ++ fmt_02X frameType)).

End Parser.

(** ** The vocabulary of the specification *)

Module Spec.

(** The byte at an index that is in range. *)
Definition byteAt (p : list byte) (i : Z) : byte := default x00 (idx p i).

(** A string [strings.ToUpper] returns as it is: ASCII without [a]..[z]. *)
Definition upper_stable (s : string) : Prop :=
  isASCII s = true /\ of_codes (map upper_byte (codes s)) = s.

(** An ASCII character that is no white space: [strings.TrimSpace] stops
    at it. *)
Definition plain (c : N) : Prop :=
  asciiSpace c = false /\ (c < 128)%N.

(** The contiguous walk over AD structures: [walk raw i] when offset [i] is
    reached from offset 0 by stepping over well-formed structures
    ([length] not 0, data inside the payload) of a type other than 0x16;
    the position after a structure at [i] is [i + 1 + length]. *)
Inductive walk (raw : list byte) : Z -> Prop :=
| walk_start : walk raw 0
| walk_next (i : Z) (lb typ : byte) :
    walk raw i ->
    idx raw i = Some lb ->
    idx raw (i + 1) = Some typ ->
    int lb <> 0 ->
    i + 1 + int lb <= len raw ->
    typ <> x16 ->
    walk raw (i + 1 + int lb).

(** The payload is exhausted at offset [i]. *)
Definition exhausted (raw : list byte) (i : Z) : Prop := len raw <= i.

(** The structure at offset [i] is malformed: its declared length is 0,
    or its data would overrun the payload. *)
Definition malformed (raw : list byte) (i : Z) : Prop :=
  exists lb, idx raw i = Some lb /\ (int lb = 0 \/ len raw < i + 1 + int lb).

(** Two bytes as a 16-bit big-endian value, unsigned and two's complement. *)
Definition be16 (hi lo : byte) : Z := 256 * int hi + int lo.

Definition be16_signed (hi lo : byte) : Z :=
  if be16 hi lo <? 32768 then be16 hi lo else be16 hi lo - 65536.


(** The reading the end-to-end scenario of the specification expects. *)
Definition scenario_reading (out : gmap string any) : Prop :=
  out !! "message_type" = Some (AString "h4pro-t&h") /\
  out !! "adv_interval_steps" = Some (AInt 5) /\
  out !! "adv_interval_ms" = Some (AInt 500) /\
  out !! "temperature" = Some (AFloat64 15) /\
  out !! "humidity" = Some (AFloat64 50) /\
  out !! "batt_vol" = Some (AInt 3000) /\
  out !! "device_type" = Some (AInt 1).


End Spec.
Import Spec.

(** An instance of the Unicode slow path of [strings.ToUpper] that maps
    nothing, to run the code on concrete ASCII inputs (which never reach
    the slow path). *)
Definition no_unicode_upper (s : string) : string := s.

(** ** The service around the decoders: main.go and db.go

    The pure functions of the request handler: [normalize], [validate],
    [head], [isLikelyHex], [deriveEventType], [slugDeviceFamily], and
    [macHexToBytea] of the directory lookups.  The handler itself, the
    database and Pub/Sub are input and output and stay outside. *)

Module GoStrings.

(** [len(s)] of a string, in bytes. *)
Definition slen (s : string) : Z := len (codes s).

(** [strings.ToLower], the part for all-ASCII strings. *)
Definition lower_byte (c : N) : N :=
  (if (65 <=? c) && (c <=? 90) then c + 32 else c)%N.

(** [strings.NewReplacer(":", "", "-", "", ".", "", " ", "")]: every old
    string is one byte, so Go builds a byte replacer; [Replace] copies the
    string byte by byte and leaves these four out. *)
Definition isSeparator (c : N) : bool :=
  ((c =? 58) || (c =? 45) || (c =? 46) || (c =? 32))%N.

Definition dropSeparators (s : string) : string :=
  of_codes (List.filter (fun c => negb (isSeparator c)) (codes s)).

End GoStrings.
Import GoStrings.

(** The request body. *)
Record MQTTMessage : Type := {
  MessageID : Z;
  GatewayMAC : string;
  GatewayHW : string;
  DeviceMAC : string;
  Payload : string;
  QoS : Z;
  Timestamp : Z;
  RSSI : option Z
}.

(** The errors of [macHexToBytea], by the values their text is formatted
    from: the cleaned string (the hex error is wrapped), or the number of
    bytes. *)
Inductive macError : Type :=
| InvalidHexMac (s : string)
| MacLength (n : Z).

Section Service.

Variable unicode_ToUpper : string -> string.
Variable unicode_ToLower : string -> string.

(** [strings.ToLower]: byte by byte on an all-ASCII string, the Unicode
    tables (a parameter) on any other. *)
Definition strings_ToLower (s : string) : string :=
  if isASCII s then of_codes (map lower_byte (codes s))
  else unicode_ToLower s.

(** [normalize(m)]: the message after the three assignments. *)
Definition normalize (m : MQTTMessage) : MQTTMessage :=
  {| MessageID := MessageID m;
     GatewayMAC := strings_ToUpper unicode_ToUpper (dropSeparators (GatewayMAC m));
     GatewayHW := GatewayHW m;
     DeviceMAC := strings_ToLower (dropSeparators (DeviceMAC m));
     Payload := strings_TrimSpace (Payload m);
     QoS := QoS m;
     Timestamp := Timestamp m;
     RSSI := RSSI m |}.

(** The test of the loop of [isLikelyHex]. *)
Definition isHexDigit (c : N) : bool :=
  ((48 <=? c) && (c <=? 57) || (97 <=? c) && (c <=? 102)
   || (65 <=? c) && (c <=? 70))%N.

Definition isLikelyHex (s : string) : bool :=
  if (slen s =? 0) || negb (slen s mod 2 =? 0) then false
  else forallb isHexDigit (codes s).

Definition validate (m : MQTTMessage) : error :=
  if MessageID m <=? 0 then Some "message_id must be > 0"
  else if String.eqb (DeviceMAC m) "" then Some "device_mac required"
  else if String.eqb (Payload m) "" then Some "payload empty"
  else if Timestamp m <=? 0 then Some "timestamp ms required"
  else if negb (isLikelyHex (Payload m)) then Some "payload is not hex-like"
  else None.

(** [head(s, n)]; [s[:n]] is a slice of the bytes. *)
Definition head (s : string) (n : Z) : option string :=
  if (n <=? 0) || (slen s <=? n) then Some s
  else let* l := slice (codes s) 0 n in Some (of_codes l).

(** [ptrIntStr(p)]. *)
Definition ptrIntStr (p : option Z) : string :=
  match p with
  | None => "nil"
  | Some v => fmt_d v
  end.

(** One iteration of the loop of [slugDeviceFamily], on the slice [b] and
    the next character.  [range] decodes UTF-8, but an ASCII byte is always
    a rune of its own and every rune decoded from bytes of 0x80 and above
    (U+FFFD for an invalid sequence) falls to the default case and is
    dropped: the loop can be read byte by byte.  [unicode.ToLower] is only
    applied to ASCII letters and digits. *)
Definition slug_step (b : list N) (r : N) : list N :=
  (if (97 <=? r) && (r <=? 122) || (65 <=? r) && (r <=? 90)
      || (48 <=? r) && (r <=? 57)
   then b ++ [lower_byte r]
   else if (r =? 32) || (r =? 95) || (r =? 45) || (r =? 47)
   then if (len b =? 0)%Z || (List.last b 0 =? 45) then b else b ++ [45]
   else b)%N%list.

Definition slugDeviceFamily (s : string) : string :=
  let b := fold_left slug_step (codes s) [] in
  (* trim trailing '-' *)
  let b := if (len b >? 0) && (List.last b 0 =? 45)%N then removelast b else b in
  if len b =? 0 then "unknown" else of_codes b.

(** [m[k].(string)] with [ok && v != ""], the test [deriveEventType] makes
    on three keys. *)
Definition nonEmptyString (m : gmap string any) (k : string) : option string :=
  match m !! k with
  | Some (AString v) => if String.eqb v "" then None else Some v
  | _ => None
  end.

(** [deriveEventType(devHW, frameType, parsed)].  [parsed] is [Some m] when
    its dynamic type is [map[string]any] (a nil map is the empty one) and
    [None] otherwise. *)
Definition deriveEventType (devHW : string) (frameType : byte)
    (parsed : option (gmap string any)) : string :=
  let fallback := slugDeviceFamily devHW ++ "/0x" ++ fmt_02X frameType in
  match parsed with
  | Some m =>
      match nonEmptyString m "type" with
      | Some v => v
      | None =>
          match nonEmptyString m "message_type" with
          | Some v => v
          | None =>
              match nonEmptyString m "messageType" with
              | Some v => v
              | None => fallback
              end
          end
      end
  | None => fallback
  end.

(** [macHexToBytea(s)]: the bytes ([nil] with an error) and the error. *)
Definition macHexToBytea (s : string) : list byte * option macError :=
  let s := strings_TrimSpace s in
  let s := dropSeparators s in
  match hex_DecodeString s with
  | None => ([], Some (InvalidHexMac s))
  | Some b =>
      if negb (len b =? 6) then ([], Some (MacLength (len b)))
      else (b, None)
  end.

End Service.

(** The Unicode slow path of [strings.ToLower] that maps nothing, for
    concrete ASCII inputs. *)
Definition no_unicode_lower (s : string) : string := s.

(** ** Vocabulary of the further properties *)

Module Layout.

(** The AD structure of type 0x16 that carries a UUID, a frame type and a
    body: length byte, type, UUID in wire order, vendor payload. *)
Definition serviceDataAD (lsb msb frameType : byte) (body : list byte) : list byte :=
  byte_of_N (N.of_nat (4 + length body)) :: x16 :: lsb :: msb :: frameType :: body.

(** The value of a string of binary digits, most significant first. *)
Definition binary_value (s : string) : Z :=
  fold_left (fun acc c => 2 * acc + (if (c =? 49)%N then 1 else 0)) (codes s) 0.

(** Every character of the string is a binary digit, 0 or 1. *)
Definition binary_digits (s : string) : bool :=
  forallb (fun c => (c =? 48) || (c =? 49))%N (codes s).

(** The characters a slug is made of. *)
Definition slug_char (c : N) : bool :=
  ((97 <=? c) && (c <=? 122) || (48 <=? c) && (c <=? 57) || (c =? 45))%N.

(** A slug: lower-case letters, digits and single dashes between them. *)
Fixpoint no_double_dash (l : list N) : bool :=
  match l with
  | a :: (b :: _) as r => negb ((a =? 45) && (b =? 45))%N && no_double_dash r
  | _ => true
  end.

Definition well_formed_slug (l : list N) : Prop :=
  l <> [] /\ forallb slug_char l = true /\ no_double_dash l = true /\
  List.hd 0%N l <> 45%N /\ List.last l 0%N <> 45%N.

(** A string [strings.TrimSpace] has nothing to remove from at the front:
    it is empty, or does not start with white space. *)
Definition stops_left (l : list N) : Prop :=
  match l with
  | [] => True
  | a :: r1 =>
      asciiSpace a = false /\
      match r1 with
      | [] => True
      | b :: r2 =>
          space2 a b = false /\
          match r2 with
          | [] => True
          | c :: _ => space3 a b c = false
          end
      end
  end.

(** The same at the end, on the reversed string. *)
Definition stops_right (l : list N) : Prop :=
  match l with
  | [] => True
  | c :: r1 =>
      asciiSpace c = false /\
      match r1 with
      | [] => True
      | b :: r2 =>
          space2 b c = false /\
          match r2 with
          | [] => True
          | a :: _ => space3 a b c = false
          end
      end
  end.

(** The keys of the envelope and of the two frames. *)
Definition TH_keys : gset string :=
  {[ "message_type"; "timestamp"; "mac"; "device_name"; "rssi";
     "adv_interval_steps"; "adv_interval_ms"; "temperature"; "humidity";
     "batt_vol"; "device_type" ]}.

Definition Info_keys : gset string :=
  {[ "message_type"; "timestamp"; "mac"; "device_name"; "rssi";
     "adv_interval_steps"; "adv_interval_ms"; "batt_vol"; "device_prop";
     "device_prop_bits"; "switch_status"; "switch_status_bits";
     "firmware_ver" ]}.

(** The invariant of the loop of [slugDeviceFamily]. *)
Definition slug_inv (b : list N) : Prop :=
  forallb slug_char b = true /\ no_double_dash b = true /\
  (b <> [] -> List.hd 0%N b <> 45%N).

(** The characters of a MAC address as the directory accepts it. *)
Definition mac_char (c : N) : bool := isHexDigit c || isSeparator c.

End Layout.
Import Layout.

(** * Properties *)

(** ** Bytes and slices *)

Lemma int_range (b : byte) : 0 <= int b < 256.
Proof.
  unfold int. pose proof (Byte.to_N_bounded b). lia.
Qed.

Lemma len_nonneg {A} (l : list A) : 0 <= len l.
Proof. unfold len. lia. Qed.

Lemma idx_in_range (p : list byte) (i : Z) :
  0 <= i < len p -> idx p i = Some (byteAt p i).
Proof.
  intros Hi. unfold byteAt, idx, len in *.
  destruct (Z.ltb_spec i 0) as [?|_]; [lia|].
  destruct (lookup_lt_is_Some_2 p (Z.to_nat i)) as [b Hb]; [lia|].
  now rewrite Hb.
Qed.

Lemma idx_lt {A} (l : list A) (i : Z) (x : A) :
  idx l i = Some x -> 0 <= i < len l.
Proof.
  unfold idx, len. destruct (Z.ltb_spec i 0); [discriminate|].
  intros Hx. apply lookup_lt_Some in Hx. lia.
Qed.

Lemma slice_in_range {A} (l : list A) (lo hi : Z) :
  0 <= lo -> lo <= hi -> hi <= len l ->
  slice l lo hi = Some (take (Z.to_nat (hi - lo)) (drop (Z.to_nat lo) l)).
Proof.
  intros H0 H1 H2. unfold slice.
  destruct (Z.leb_spec 0 lo); [|lia].
  destruct (Z.leb_spec lo hi); [|lia].
  destruct (Z.leb_spec hi (len l)); [|lia].
  reflexivity.
Qed.

(** ** Strings *)

Lemma codes_app (s1 s2 : string) : codes (s1 ++ s2) = (codes s1 ++ codes s2)%list.
Proof.
  unfold codes. induction s1 as [|c s1 IH]; simpl; [reflexivity|].
  now rewrite IH.
Qed.

Lemma of_codes_app (l1 l2 : list N) : of_codes (l1 ++ l2) = of_codes l1 ++ of_codes l2.
Proof.
  unfold of_codes. induction l1 as [|c l1 IH]; simpl; [reflexivity|].
  now rewrite IH.
Qed.

Lemma codes_of_codes (l : list N) :
  Forall (fun c => (c < 256)%N) l -> codes (of_codes l) = l.
Proof.
  unfold codes, of_codes. induction 1 as [|c l Hc _ IH]; simpl; [reflexivity|].
  now rewrite N_ascii_embedding, IH.
Qed.

(** *** Every payload is the decoding of its hexadecimal text *)

Lemma hex_digits_byte (b : byte) :
  fromHexChar (lowerhex (Byte.to_N b / 16)) = Some (Byte.to_N b / 16)%N /\
  fromHexChar (lowerhex (Byte.to_N b mod 16)) = Some (Byte.to_N b mod 16)%N /\
  byte_of_N (Byte.to_N b / 16 * 16 + Byte.to_N b mod 16) = b.
Proof.
  destruct b; repeat split; vm_compute; reflexivity.
Qed.

Lemma hex_Decode_Encode (raw : list byte) : hex_Decode (hex_Encode raw) = Some raw.
Proof.
  induction raw as [|b raw IH]; [reflexivity|].
  destruct (hex_digits_byte b) as (Hhi & Hlo & Hb).
  change (hex_Encode (b :: raw))
    with (lowerhex (Byte.to_N b / 16) :: lowerhex (Byte.to_N b mod 16)
            :: hex_Encode raw).
  cbn [hex_Decode]. now rewrite Hhi, Hlo, IH, Hb.
Qed.

Lemma lowerhex_plain (b : byte) :
  plain (lowerhex (Byte.to_N b / 16)) /\ plain (lowerhex (Byte.to_N b mod 16)).
Proof.
  destruct b; repeat split; vm_compute; reflexivity.
Qed.

Lemma space2_plain_l (a b : N) : plain a -> space2 a b = false.
Proof.
  intros [_ Ha]. unfold space2.
  destruct (N.eqb_spec a 0xC2); [lia|reflexivity].
Qed.

Lemma space2_plain_r (a b : N) : plain b -> space2 a b = false.
Proof.
  intros [_ Hb]. unfold space2.
  destruct (N.eqb_spec b 0x85); [lia|]. destruct (N.eqb_spec b 0xA0); [lia|].
  apply andb_false_r.
Qed.

Lemma space3_plain_l (a b c : N) : plain a -> space3 a b c = false.
Proof.
  intros [_ Ha]. unfold space3.
  destruct (N.eqb_spec a 0xE1); [lia|]. destruct (N.eqb_spec a 0xE2); [lia|].
  destruct (N.eqb_spec a 0xE3); [lia|]. reflexivity.
Qed.

Lemma space3_plain_r (a b c : N) : plain c -> space3 a b c = false.
Proof.
  intros [_ Hc]. unfold space3.
  destruct (N.eqb_spec c 0x80); [lia|]. destruct (N.eqb_spec c 0xA8); [lia|].
  destruct (N.eqb_spec c 0xA9); [lia|]. destruct (N.eqb_spec c 0xAF); [lia|].
  destruct (N.eqb_spec c 0x9F); [lia|]. destruct (N.leb_spec 0x80 c); [lia|].
  rewrite !andb_false_r. reflexivity.
Qed.

Lemma trimLeft_plain (c : N) (s : list N) : plain c -> trimLeft (c :: s) = c :: s.
Proof.
  intros Hc. cbn [trimLeft]. rewrite (proj1 Hc).
  destruct s as [|b [|d s]]; [reflexivity| |].
  - now rewrite space2_plain_l.
  - now rewrite space2_plain_l, space3_plain_l.
Qed.

Lemma trimLeftRev_plain (c : N) (s : list N) :
  plain c -> trimLeftRev (c :: s) = c :: s.
Proof.
  intros Hc. cbn [trimLeftRev]. rewrite (proj1 Hc).
  destruct s as [|b [|d s]]; [reflexivity| |].
  - now rewrite space2_plain_r.
  - now rewrite space2_plain_r, space3_plain_r.
Qed.

Lemma hex_Encode_plain (raw : list byte) : Forall plain (hex_Encode raw).
Proof.
  induction raw as [|b raw IH]; [constructor|].
  destruct (lowerhex_plain b) as [Hhi Hlo].
  change (hex_Encode (b :: raw))
    with (lowerhex (Byte.to_N b / 16) :: lowerhex (Byte.to_N b mod 16)
            :: hex_Encode raw).
  constructor; [exact Hhi|]. constructor; [exact Hlo|exact IH].
Qed.

Lemma trim_plain (l : list N) :
  Forall plain l -> rev (trimLeftRev (rev (trimLeft l))) = l.
Proof.
  intros Hl. destruct Hl as [|c l Hc Hl]; [reflexivity|].
  rewrite trimLeft_plain by assumption.
  assert (Hrev : Forall plain (rev (c :: l))).
  { apply Forall_rev. now constructor. }
  destruct (rev (c :: l)) as [|d r] eqn:E.
  - apply (f_equal (@length N)) in E. rewrite length_rev in E. discriminate.
  - rewrite trimLeftRev_plain by (now inversion Hrev).
    rewrite <- E. apply rev_involutive.
Qed.

Lemma hex_DecodeString_EncodeToString (raw : list byte) :
  hex_DecodeString (strings_TrimSpace (hex_EncodeToString raw)) = Some raw.
Proof.
  assert (Hp : Forall plain (hex_Encode raw)) by apply hex_Encode_plain.
  assert (Hc : Forall (fun c => (c < 256)%N) (hex_Encode raw)).
  { eapply Forall_impl; [exact Hp|]. intros c [_ Hlt]. simpl. lia. }
  unfold hex_DecodeString, strings_TrimSpace, hex_EncodeToString.
  rewrite (codes_of_codes _ Hc), (trim_plain _ Hp), (codes_of_codes _ Hc).
  apply hex_Decode_Encode.
Qed.

Lemma upper_stable_app (s1 s2 : string) :
  upper_stable s1 -> upper_stable s2 -> upper_stable (s1 ++ s2).
Proof.
  intros [A1 U1] [A2 U2]. split.
  - unfold isASCII in *. rewrite codes_app, forallb_app, A1, A2. reflexivity.
  - rewrite codes_app, map_app, of_codes_app, U1, U2. reflexivity.
Qed.

Lemma fmt_02X_upper_stable (b : byte) : upper_stable (fmt_02X b).
Proof.
  destruct b; split; vm_compute; reflexivity.
Qed.

Section ParserFacts.

Variable unicode_ToUpper : string -> string.

Lemma strings_ToUpper_stable (s : string) :
  upper_stable s -> strings_ToUpper unicode_ToUpper s = s.
Proof.
  intros [A U]. unfold strings_ToUpper. now rewrite A.
Qed.

(** The text of a UUID is already upper case. *)
Lemma uuidText_upper (msb lsb : byte) :
  strings_ToUpper unicode_ToUpper (fmt_02X msb ++ fmt_02X lsb)
  = fmt_02X msb ++ fmt_02X lsb.
Proof.
  apply strings_ToUpper_stable, upper_stable_app; apply fmt_02X_upper_stable.
Qed.

(** *** The loop of the scanner, one iteration at a time *)

Lemma scanAD_done (raw : list byte) (i : Z) :
  len raw <= i -> scanAD unicode_ToUpper raw i = Some notFound.
Proof.
  intros Hi. rewrite scanAD_equation_1.
  destruct (Z_lt_dec i (len raw)) as [Hlt|Hge]; [lia|].
  apply scanAD_clause_1_equation_2.
Qed.

Lemma scanAD_malformed (raw : list byte) (i : Z) (lb : byte) :
  idx raw i = Some lb ->
  int lb = 0 \/ len raw < i + 1 + int lb ->
  scanAD unicode_ToUpper raw i = Some notFound.
Proof.
  intros Hlb Hbad. pose proof (idx_lt _ _ _ Hlb) as Hi.
  rewrite scanAD_equation_1.
  destruct (Z_lt_dec i (len raw)) as [Hlt|Hge]; [|lia].
  rewrite scanAD_clause_1_equation_1.
  destruct (i + 1 >=? len raw); [reflexivity|].
  rewrite Hlb. cbv zeta.
  destruct Hbad as [H0|Hover].
  - rewrite H0. reflexivity.
  - destruct (Z.eqb_spec (int lb) 0); [reflexivity|].
    rewrite Z.gtb_ltb. destruct (Z.ltb_spec (len raw) (i + 1 + int lb)); [reflexivity|lia].
Qed.

Lemma scanAD_skip (raw : list byte) (i : Z) (lb typ : byte) :
  idx raw i = Some lb ->
  idx raw (i + 1) = Some typ ->
  int lb <> 0 ->
  i + 1 + int lb <= len raw ->
  typ <> x16 ->
  scanAD unicode_ToUpper raw i = scanAD unicode_ToUpper raw (i + 1 + int lb).
Proof.
  intros Hlb Htyp Hnz Hfit Hne.
  pose proof (idx_lt _ _ _ Hlb) as Hi. pose proof (idx_lt _ _ _ Htyp) as Hi1.
  rewrite scanAD_equation_1 at 1.
  destruct (Z_lt_dec i (len raw)) as [Hlt|Hge]; [|lia].
  rewrite scanAD_clause_1_equation_1.
  rewrite Z.geb_leb. destruct (Z.leb_spec (len raw) (i + 1)); [lia|].
  rewrite Hlb. cbv zeta.
  destruct (Z.eqb_spec (int lb) 0); [lia|].
  rewrite Z.gtb_ltb. destruct (Z.ltb_spec (len raw) (i + 1 + int lb)); [lia|].
  simpl orb. cbv iota. rewrite Htyp.
  destruct (Byte.eqb typ x16) eqn:E.
  - apply Byte.byte_dec_bl in E. contradiction.
  - reflexivity.
Qed.

Lemma scanAD_match (raw : list byte) (i : Z) (lb lsb msb : byte) :
  idx raw i = Some lb ->
  idx raw (i + 1) = Some x16 ->
  4 <= int lb ->
  i + 1 + int lb <= len raw ->
  idx raw (i + 2) = Some lsb ->
  idx raw (i + 3) = Some msb ->
  exists data,
    slice raw (i + 4) (i + 1 + int lb) = Some data /\
    len data = int lb - 3 /\
    scanAD unicode_ToUpper raw i =
      Some (fmt_02X msb ++ fmt_02X lsb,
            match data with [] => x00 | frameType :: _ => frameType end,
            match data with [] => [] | _ :: rest => rest end,
            true).
Proof.
  intros Hlb Htyp H4 Hfit Hlsb Hmsb.
  pose proof (idx_lt _ _ _ Hlb) as Hi.
  rewrite scanAD_equation_1.
  destruct (Z_lt_dec i (len raw)) as [Hlt|Hge]; [|lia].
  rewrite scanAD_clause_1_equation_1.
  rewrite Z.geb_leb. destruct (Z.leb_spec (len raw) (i + 1)); [lia|].
  rewrite Hlb. cbv zeta.
  destruct (Z.eqb_spec (int lb) 0); [lia|].
  rewrite Z.gtb_ltb. destruct (Z.ltb_spec (len raw) (i + 1 + int lb)); [lia|].
  simpl orb. cbv iota. rewrite Htyp. simpl Byte.eqb. cbv iota.
  destruct (Z.ltb_spec (int lb) 4); [lia|].
  rewrite Hlsb, Hmsb, slice_in_range by lia.
  rewrite uuidText_upper.
  eexists. split; [reflexivity|]. split.
  - unfold len in *. rewrite length_take, length_drop. lia.
  - destruct (take _ _); reflexivity.
Qed.

Lemma scanAD_short16 (raw : list byte) (i : Z) (lb : byte) :
  idx raw i = Some lb ->
  idx raw (i + 1) = Some x16 ->
  int lb < 4 ->
  scanAD unicode_ToUpper raw i = Some notFound.
Proof.
  intros Hlb Htyp Hshort.
  pose proof (idx_lt _ _ _ Hlb) as Hi.
  rewrite scanAD_equation_1.
  destruct (Z_lt_dec i (len raw)) as [Hlt|Hge]; [|lia].
  rewrite scanAD_clause_1_equation_1.
  destruct (i + 1 >=? len raw); [reflexivity|].
  rewrite Hlb. cbv zeta.
  destruct ((int lb =? 0) || (i + 1 + int lb >? len raw)); [reflexivity|].
  rewrite Htyp. simpl Byte.eqb. cbv iota.
  destruct (Z.ltb_spec (int lb) 4); [reflexivity|lia].
Qed.

(** The scan from offset 0 is the scan from any offset the walk reaches. *)
Lemma scanAD_walk (raw : list byte) (i : Z) :
  walk raw i -> scanAD unicode_ToUpper raw 0 = scanAD unicode_ToUpper raw i.
Proof.
  induction 1 as [|i lb typ Hw IH Hlb Htyp Hnz Hfit Hne]; [reflexivity|].
  rewrite IH. now apply scanAD_skip with (typ := typ).
Qed.

Lemma walk_nonneg (raw : list byte) (i : Z) : walk raw i -> 0 <= i.
Proof.
  induction 1 as [|i lb typ Hw IH Hlb Htyp Hnz Hfit Hne]; [lia|].
  pose proof (int_range lb). lia.
Qed.

(** The loop never indexes or slices out of range, and it ends. *)
Lemma scanAD_total (raw : list byte) (i : Z) :
  0 <= i -> is_Some (scanAD unicode_ToUpper raw i).
Proof.
  remember (Z.to_nat (len raw - i)) as n eqn:Hn. revert i Hn.
  induction n as [n IH] using lt_wf_ind. intros i Hn Hi.
  destruct (Z_lt_dec i (len raw)) as [Hlt|Hge];
    [|rewrite scanAD_done by lia; eauto].
  pose proof (idx_in_range raw i ltac:(lia)) as Hlb.
  pose proof (int_range (byteAt raw i)) as Hr.
  destruct (Z.eq_dec (int (byteAt raw i)) 0) as [H0|Hnz];
    [rewrite (scanAD_malformed raw i _ Hlb) by auto; eauto|].
  destruct (Z_lt_dec (len raw) (i + 1 + int (byteAt raw i))) as [Hover|Hfit];
    [rewrite (scanAD_malformed raw i _ Hlb) by auto; eauto|].
  pose proof (idx_in_range raw (i + 1) ltac:(lia)) as Htyp.
  destruct (Byte.byte_eq_dec (byteAt raw (i + 1)) x16) as [E|Hne].
  - rewrite E in Htyp.
    destruct (Z_lt_dec (int (byteAt raw i)) 4) as [Hshort|Hlong];
      [rewrite (scanAD_short16 raw i _ Hlb Htyp) by auto; eauto|].
    destruct (scanAD_match raw i _ (byteAt raw (i + 2)) (byteAt raw (i + 3)) Hlb Htyp)
      as (data & _ & _ & ->); try lia; eauto using idx_in_range.
    + apply idx_in_range; lia.
    + apply idx_in_range; lia.
  - rewrite (scanAD_skip raw i _ _ Hlb Htyp) by (auto; lia).
    apply (IH (Z.to_nat (len raw - (i + 1 + int (byteAt raw i))))); lia.
Qed.

Lemma extractServiceData16_total (payloadHex : string) :
  is_Some (extractServiceData16 unicode_ToUpper payloadHex).
Proof.
  unfold extractServiceData16.
  destruct (hex_DecodeString _) as [raw|]; [|eauto].
  destruct (len raw =? 0); [eauto|]. now apply scanAD_total.
Qed.

(** C2: for every payload, the scanner reports not-found (empty UUID text,
    frame type 0, no bytes, [ok = false]) whenever the contiguous walk from
    offset 0 exhausts the payload without meeting a structure of type 0x16,
    or meets, before any such structure, one whose declared length is 0 or
    whose data would overrun the payload; no structure before the break is
    matched. *)
Theorem C2_scanner_not_found (payloadHex : string) (raw : list byte) (i : Z) :
  hex_DecodeString (strings_TrimSpace payloadHex) = Some raw ->
  walk raw i ->
  exhausted raw i \/ malformed raw i ->
  extractServiceData16 unicode_ToUpper payloadHex = Some notFound.
Proof.
  intros Hdec Hw Hend. unfold extractServiceData16. rewrite Hdec.
  destruct (len raw =? 0); [reflexivity|].
  rewrite (scanAD_walk raw i Hw).
  destruct Hend as [Hex|(lb & Hlb & Hbad)].
  - now apply scanAD_done.
  - now apply scanAD_malformed with (lb := lb).
Qed.

(** C3: for every payload whose first AD structure of type 0x16 (reached by
    the walk, inside the payload) has length at least 4, the scanner returns
    [ok] with, as UUID text, the upper-case hexadecimal digits of the byte at
    offset+3 followed by those of the byte at offset+2. *)
Theorem C3_uuid_byte_order (payloadHex : string) (raw : list byte) (i : Z)
    (lb lsb msb : byte) :
  hex_DecodeString (strings_TrimSpace payloadHex) = Some raw ->
  walk raw i ->
  idx raw i = Some lb ->
  idx raw (i + 1) = Some x16 ->
  4 <= int lb ->
  i + 1 + int lb <= len raw ->
  idx raw (i + 2) = Some lsb ->
  idx raw (i + 3) = Some msb ->
  exists frameType rest,
    extractServiceData16 unicode_ToUpper payloadHex
    = Some (fmt_02X msb ++ fmt_02X lsb, frameType, rest, true).
Proof.
  intros Hdec Hw Hlb Htyp H4 Hfit Hlsb Hmsb.
  unfold extractServiceData16. rewrite Hdec.
  pose proof (idx_lt _ _ _ Hlb) as Hi. pose proof (walk_nonneg _ _ Hw) as H0.
  destruct (Z.eqb_spec (len raw) 0); [lia|].
  rewrite (scanAD_walk raw i Hw).
  destruct (scanAD_match raw i lb lsb msb Hlb Htyp H4 Hfit Hlsb Hmsb)
    as (data & _ & _ & ->).
  eauto.
Qed.

End ParserFacts.

(** An advertisement whose second structure, of type 0x16, overruns the
    payload: nothing is matched. *)
Lemma C2_scanner_not_found_witness :
  extractServiceData16 no_unicode_upper "0201060916ABFE" = Some notFound.
Proof.
  apply (C2_scanner_not_found no_unicode_upper "0201060916ABFE"
           [x02; x01; x06; x09; x16; xab; xfe] 3).
  - reflexivity.
  - apply (walk_next _ 0 x02 x01).
    + apply walk_start.
    + reflexivity.
    + reflexivity.
    + vm_compute. discriminate.
    + vm_compute. discriminate.
    + discriminate.
  - right. exists x09. split; [reflexivity|]. right. vm_compute. reflexivity.
Defined.

(** C3 as worded, without the condition that the structure lies inside the
    payload, fails.  The payload 05 16 AB FE has its first, and only,
    structure of type 0x16 at offset 0, with declared length 5, which is at
    least 4, and wire bytes AB then FE at offsets 2 and 3; but the
    structure would end at offset 6 and the payload has 4 bytes, so the
    scanner returns not-found, with the empty UUID text.  The same happens
    for 02 01 06 09 16 AB FE, where the structure of type 0x16 follows a
    well-formed structure and declares length 9. *)
Lemma C3_uuid_byte_order_counterexample :
  hex_DecodeString (strings_TrimSpace "0516ABFE") = Some [x05; x16; xab; xfe] /\
  walk [x05; x16; xab; xfe] 0 /\
  idx [x05; x16; xab; xfe] 0 = Some x05 /\
  idx [x05; x16; xab; xfe] (0 + 1) = Some x16 /\
  4 <= int x05 /\
  len [x05; x16; xab; xfe] < 0 + 1 + int x05 /\
  idx [x05; x16; xab; xfe] (0 + 2) = Some xab /\
  idx [x05; x16; xab; xfe] (0 + 3) = Some xfe /\
  extractServiceData16 no_unicode_upper "0516ABFE" = Some ("", x00, [], false) /\
  ~ (exists frameType rest,
       extractServiceData16 no_unicode_upper "0516ABFE"
       = Some (fmt_02X xfe ++ fmt_02X xab, frameType, rest, true)) /\
  extractServiceData16 no_unicode_upper "0201060916ABFE"
  = Some ("", x00, [], false).
Proof.
  split; [reflexivity|]. split; [apply walk_start|].
  do 2 (split; [reflexivity|]).
  split; [vm_compute; discriminate|]. split; [reflexivity|].
  do 3 (split; [reflexivity|]).
  split; [|reflexivity].
  intros (frameType & rest & H). discriminate H.
Qed.

(** Wire bytes 0xAB then 0xFE in a well-formed advertisement: the UUID text
    is FEAB. *)
Lemma C3_uuid_byte_order_witness :
  exists frameType rest,
    extractServiceData16 no_unicode_upper
      "0201060916ABFE7005009601F40BB801AABBCCDDEEFF"
    = Some ("FEAB", frameType, rest, true).
Proof.
  apply (C3_uuid_byte_order no_unicode_upper
           "0201060916ABFE7005009601F40BB801AABBCCDDEEFF"
           [x02; x01; x06; x09; x16; xab; xfe; x70; x05; x00; x96; x01; xf4;
            x0b; xb8; x01; xaa; xbb; xcc; xdd; xee; xff]
           3 x09 xab xfe).
  - reflexivity.
  - apply (walk_next _ 0 x02 x01).
    + apply walk_start.
    + reflexivity.
    + reflexivity.
    + vm_compute. discriminate.
    + vm_compute. discriminate.
    + discriminate.
  - reflexivity.
  - reflexivity.
  - vm_compute. discriminate.
  - vm_compute. discriminate.
  - reflexivity.
  - reflexivity.
Defined.

(** ** Fixed-width reads *)

Lemma lor_shiftl8 (k y : Z) :
  0 <= y < 256 -> Z.lor (Z.shiftl k 8) y = k * 256 + y.
Proof.
  intros Hy.
  assert (Hland : Z.land (Z.shiftl k 8) y = 0).
  { apply Z.bits_inj'. intros n Hn.
    rewrite Z.land_spec, Z.bits_0.
    destruct (Z_lt_dec n 8) as [Hlow|Hhigh].
    - rewrite Z.shiftl_spec_low by lia. reflexivity.
    - rewrite <- (Z.mod_small y (2 ^ 8)) by lia.
      rewrite Z.mod_pow2_bits_high by lia. apply andb_false_r. }
  pose proof (Z.add_lor_land (Z.shiftl k 8) y) as Hadd.
  rewrite Hland in Hadd. rewrite Z.shiftl_mul_pow2 in * by lia.
  change (2 ^ 8) with 256 in *. lia.
Qed.

Lemma int16_shiftl8 (x : Z) :
  0 <= x < 256 ->
  int16 (Z.shiftl x 8) = Z.shiftl (if x <? 128 then x else x - 256) 8.
Proof.
  intros Hx. unfold int16. rewrite !Z.shiftl_mul_pow2 by lia.
  change (2 ^ 8) with 256.
  destruct (Z.ltb_spec x 128).
  - rewrite Z.mod_small by lia. lia.
  - replace (x * 256 + 32768) with ((x * 256 - 32768) + 1 * 65536) by lia.
    rewrite Z.mod_add by lia. rewrite Z.mod_small by lia. lia.
Qed.

Lemma u16be_fits (b : list byte) (off : Z) :
  0 <= off -> off + 2 <= len b ->
  u16be b off = Some (be16 (byteAt b off) (byteAt b (off + 1)), true, off + 2).
Proof.
  intros H0 Hfit. unfold u16be.
  destruct (Z.ltb_spec (len b) (off + 2)); [lia|].
  rewrite !idx_in_range by lia. cbv zeta.
  rewrite lor_shiftl8 by apply int_range.
  unfold be16. do 3 f_equal. lia.
Qed.

Lemma u16be_short (b : list byte) (off : Z) :
  len b < off + 2 -> u16be b off = Some (0, false, off).
Proof.
  intros Hshort. unfold u16be.
  destruct (Z.ltb_spec (len b) (off + 2)); [reflexivity|lia].
Qed.

Lemma i16be_fits (b : list byte) (off : Z) :
  0 <= off -> off + 2 <= len b ->
  i16be b off
  = Some (be16_signed (byteAt b off) (byteAt b (off + 1)), true, off + 2).
Proof.
  intros H0 Hfit. unfold i16be.
  destruct (Z.ltb_spec (len b) (off + 2)); [lia|].
  rewrite !idx_in_range by lia. cbv zeta.
  pose proof (int_range (byteAt b off)) as Hhi.
  pose proof (int_range (byteAt b (off + 1))) as Hlo.
  rewrite int16_shiftl8, lor_shiftl8 by assumption.
  unfold be16_signed, be16. do 3 f_equal.
  destruct (Z.ltb_spec (int (byteAt b off)) 128);
    destruct (Z.ltb_spec (256 * int (byteAt b off) + int (byteAt b (off + 1))) 32768);
    lia.
Qed.

Lemma i16be_short (b : list byte) (off : Z) :
  len b < off + 2 -> i16be b off = Some (0, false, off).
Proof.
  intros Hshort. unfold i16be.
  destruct (Z.ltb_spec (len b) (off + 2)); [reflexivity|lia].
Qed.

(** ** The decoders, field by field *)

(** One step of a decoder: decide the next width check from the length of
    the payload, and read. *)
Ltac cursor_step :=
  match goal with
  | |- context [?a >=? ?b] => rewrite (Z.geb_leb a b)
  | |- context [?a >? ?b] => rewrite (Z.gtb_ltb a b)
  | |- context [Z.leb ?a ?b] => destruct (Z.leb_spec a b); try lia
  | |- context [Z.ltb ?a ?b] => destruct (Z.ltb_spec a b); try lia
  | |- context [idx ?p ?i] => rewrite (idx_in_range p i) by lia
  | |- context [slice ?p ?a ?b] => rewrite (slice_in_range p a b) by lia
  | |- context [i16be ?p ?off] =>
      destruct (Z_lt_dec (len p) (off + 2));
      [try lia; rewrite (i16be_short p off) by lia
      |try lia; rewrite (i16be_fits p off) by lia]
  | |- context [u16be ?p ?off] =>
      destruct (Z_lt_dec (len p) (off + 2));
      [try lia; rewrite (u16be_short p off) by lia
      |try lia; rewrite (u16be_fits p off) by lia]
  end; cbv beta iota.

Ltac run_decoder := cbv zeta; repeat cursor_step.

Section DecoderFacts.

Variable unicode_ToUpper : string -> string.
Variables (ts : Z) (mac deviceName : string) (rssi : option Z).

(** Payloads that agree on their first [n] bytes agree at every offset
    below [n]. *)
Lemma byteAt_take (n : nat) (p1 p2 : list byte) (i : Z) :
  take n p1 = take n p2 -> 0 <= i < Z.of_nat n -> byteAt p1 i = byteAt p2 i.
Proof.
  intros Heq Hi. unfold byteAt, idx.
  destruct (Z.ltb_spec i 0); [lia|].
  rewrite <- (lookup_take_lt p1 n (Z.to_nat i)) by lia.
  rewrite <- (lookup_take_lt p2 n (Z.to_nat i)) by lia.
  now rewrite Heq.
Qed.

(** C4: for every Temperature & Humidity payload of length at least 4 the
    emitted temperature is s / 10.0, where s is the 16-bit big-endian two's
    complement value of the bytes at offsets 2 and 3; bytes 0x00 0x96 give
    15.0 and bytes 0xFF 0x9C give -10.0. *)
Theorem C4_temperature_signed (p : list byte) :
  4 <= len p ->
  exists out,
    buildTH unicode_ToUpper ts mac deviceName rssi p = Some (Some out, None) /\
    out !! "temperature"
    = Some (AFloat64 (float64 (be16_signed (byteAt p 2) (byteAt p 3)) / 10)) /\
    (byteAt p 2 = x00 -> byteAt p 3 = x96 ->
     out !! "temperature" = Some (AFloat64 15)) /\
    (byteAt p 2 = xff -> byteAt p 3 = x9c ->
     out !! "temperature" = Some (AFloat64 (-10))).
Proof.
  intros Hlen. unfold buildTH. run_decoder.
  all: eexists; (split; [reflexivity|]).
  all: destruct rssi.
  all: match goal with |- ?A /\ _ => assert (Ht : A) by reflexivity end.
  all: split; [exact Ht|].
  all: split; intros Ehi Elo; rewrite Ht, Ehi, Elo; reflexivity.
Qed.

(** C5: a Temperature & Humidity payload of exactly 4 bytes (ranging,
    interval steps, two temperature bytes) decodes without error to a
    reading with [message_type], [adv_interval_steps], [adv_interval_ms]
    and [temperature], and without [humidity], [batt_vol] and
    [device_type]. *)
Theorem C5_partial_tail (p : list byte) :
  len p = 4 ->
  exists out,
    buildTH unicode_ToUpper ts mac deviceName rssi p = Some (Some out, None) /\
    out !! "message_type" = Some (AString "h4pro-t&h") /\
    out !! "adv_interval_steps" = Some (AInt (int (byteAt p 1))) /\
    out !! "adv_interval_ms" = Some (AInt (int (byteAt p 1) * 100)) /\
    out !! "temperature"
    = Some (AFloat64 (float64 (be16_signed (byteAt p 2) (byteAt p 3)) / 10)) /\
    out !! "humidity" = None /\
    out !! "batt_vol" = None /\
    out !! "device_type" = None.
Proof.
  intros Hlen. unfold buildTH. run_decoder.
  eexists. split; [reflexivity|].
  destruct rssi; repeat split; reflexivity.
Qed.

(** C6: two Temperature & Humidity payloads of length at least 9 that agree
    on their first 9 bytes decode, without error, to the same reading: the
    embedded MAC and anything after it change nothing. *)
Theorem C6_tail_ignored (p1 p2 : list byte) :
  9 <= len p1 ->
  9 <= len p2 ->
  take 9 p1 = take 9 p2 ->
  exists out,
    buildTH unicode_ToUpper ts mac deviceName rssi p1 = Some (Some out, None) /\
    buildTH unicode_ToUpper ts mac deviceName rssi p2 = Some (Some out, None).
Proof.
  intros Hlen1 Hlen2 Heq. unfold buildTH. run_decoder.
  all: eexists; (split; [reflexivity|]).
  all: repeat match goal with
         | E : take _ ?a = take _ ?b |- context [byteAt ?b ?i] =>
             rewrite <- (byteAt_take 9 a b i E) by lia
         end.
  all: reflexivity.
Qed.

(** C7: for every payload and a frame-type byte that is neither 0x70 nor
    0x40, the dispatch returns a nil mapping and an error that names the
    frame-type code; the result is the same for every payload, the empty
    one included, so no payload byte is read. *)
Theorem C7_unknown_frame_type (frameType : byte) (p : list byte) :
  frameType <> x70 ->
  frameType <> x40 ->
  ParseH4ProToOutput unicode_ToUpper frameType p ts mac deviceName rssi
  = Some (None, Some ("unknown H4 Pro frame_type 0x" ++ fmt_02X frameType)).
Proof.
  intros H70 H40. unfold ParseH4ProToOutput.
  destruct (Byte.eqb frameType x70) eqn:E70;
    [apply Byte.byte_dec_bl in E70; contradiction|].
  destruct (Byte.eqb frameType x40) eqn:E40;
    [apply Byte.byte_dec_bl in E40; contradiction|].
  reflexivity.
Qed.

(** C8: for every Info payload that reaches the firmware-version field (14
    bytes or more), [firmware_ver] is V0.0. followed by the decimal digits
    of the 16-bit big-endian unsigned value of the bytes at offsets 12 and
    13; value 7 gives V0.0.7 and value 0 gives V0.0.0. *)
Theorem C8_firmware_version (p : list byte) :
  14 <= len p ->
  exists out,
    buildInfo unicode_ToUpper ts mac deviceName rssi p = Some (Some out, None) /\
    out !! "firmware_ver"
    = Some (AString ("V0.0." ++ fmt_d (be16 (byteAt p 12) (byteAt p 13)))) /\
    (be16 (byteAt p 12) (byteAt p 13) = 7 ->
     out !! "firmware_ver" = Some (AString "V0.0.7")) /\
    (be16 (byteAt p 12) (byteAt p 13) = 0 ->
     out !! "firmware_ver" = Some (AString "V0.0.0")).
Proof.
  intros Hlen. unfold buildInfo. run_decoder.
  all: eexists; (split; [reflexivity|]).
  all: destruct rssi.
  all: match goal with |- ?A /\ _ => assert (Hv : A) by reflexivity end.
  all: split; [exact Hv|].
  all: split; intros E; rewrite Hv, E; reflexivity.
Qed.



(** C10: for every Info payload of 8 to 11 bytes the embedded MAC is not
    skipped, and [firmware_ver] is computed from the bytes at offsets 6 and
    7 (the first two bytes of the truncated MAC field) as a 16-bit
    big-endian value. *)
Theorem C10_firmware_from_truncated_mac (p : list byte) :
  8 <= len p <= 11 ->
  exists out,
    buildInfo unicode_ToUpper ts mac deviceName rssi p = Some (Some out, None) /\
    out !! "firmware_ver"
    = Some (AString ("V0.0." ++ fmt_d (be16 (byteAt p 6) (byteAt p 7)))).
Proof.
  intros Hlen. unfold buildInfo. run_decoder.
  all: eexists; (split; [reflexivity|]).
  all: destruct rssi; reflexivity.
Qed.

(** C1, as the code has it: for the advertisement
    02 01 06 09 16 AB FE 70 05 00 96 01 F4 0B B8 01 AA BB CC DD EE FF the
    scanner returns [ok] with UUID text FEAB, frame type 0x70 and the five
    bytes 05 00 96 01 F4 that remain inside the structure of declared
    length 9; the Temperature & Humidity decoder reads 05 as the ranging
    byte and 00 as the interval, and returns [message_type], 0 steps, 0 ms,
    temperature -2713.5 and device type 244, without humidity and battery
    voltage. *)
Theorem C1_end_to_end :
  extractServiceData16 unicode_ToUpper
    "0201060916ABFE7005009601F40BB801AABBCCDDEEFF"
  = Some ("FEAB", x70, [x05; x00; x96; x01; xf4], true) /\
  exists out,
    buildTH unicode_ToUpper ts mac deviceName rssi [x05; x00; x96; x01; xf4]
    = Some (Some out, None) /\
    out !! "message_type" = Some (AString "h4pro-t&h") /\
    out !! "adv_interval_steps" = Some (AInt 0) /\
    out !! "adv_interval_ms" = Some (AInt 0) /\
    out !! "temperature" = Some (AFloat64 (-2713.5)) /\
    out !! "humidity" = None /\
    out !! "batt_vol" = None /\
    out !! "device_type" = Some (AInt 244).
Proof.
  split.
  - reflexivity.
  - eexists. split; [reflexivity|].
    destruct rssi; repeat split; reflexivity.
Qed.

End DecoderFacts.

(** ** The properties at concrete payloads *)

(** The end-to-end scenario as the specification words it expects 5 steps,
    500 ms, temperature 15.0, humidity 50.0, 3000 mV and device type 1.  The
    structure of type 0x16 declares length 9, so only 05 00 96 01 F4 follow
    the frame type, and the decoder takes 05 for the ranging byte: it
    returns 0 steps, 0 ms, temperature -2713.5, device type 244 and neither
    humidity nor battery voltage. *)
Lemma C1_end_to_end_counterexample :
  extractServiceData16 no_unicode_upper
    "0201060916ABFE7005009601F40BB801AABBCCDDEEFF"
  = Some ("FEAB", x70, [x05; x00; x96; x01; xf4], true) /\
  exists out,
    buildTH no_unicode_upper 1700000000000 "c3a1b2d4e5f6" "cold room 2"
      (Some (-67)) [x05; x00; x96; x01; xf4]
    = Some (Some out, None) /\
    out !! "adv_interval_steps" = Some (AInt 0) /\
    out !! "adv_interval_ms" = Some (AInt 0) /\
    out !! "temperature" = Some (AFloat64 (-2713.5)) /\
    out !! "humidity" = None /\
    out !! "batt_vol" = None /\
    out !! "device_type" = Some (AInt 244) /\
    ~ scenario_reading out.
Proof.
  split; [reflexivity|].
  eexists. split; [reflexivity|]. repeat (split; [reflexivity|]).
  intros (_ & Hsteps & _). discriminate Hsteps.
Qed.


(** Temperature bytes 00 96 give 15.0, and FF 9C give -10.0. *)
Lemma C4_temperature_signed_witness :
  (exists out,
     buildTH no_unicode_upper 1700000000000 "c3a1b2d4e5f6" "cold room 2"
       (Some (-67)) [x00; x05; x00; x96]
     = Some (Some out, None) /\
     out !! "temperature" = Some (AFloat64 15)) /\
  (exists out,
     buildTH no_unicode_upper 1700000000000 "c3a1b2d4e5f6" "cold room 2"
       (Some (-67)) [x00; x05; xff; x9c; x01; xf4]
     = Some (Some out, None) /\
     out !! "temperature" = Some (AFloat64 (-10))).
Proof.
  split.
  - destruct (C4_temperature_signed no_unicode_upper 1700000000000
                "c3a1b2d4e5f6" "cold room 2" (Some (-67)) [x00; x05; x00; x96])
      as (out & Hout & _ & H15 & _).
    + unfold len. simpl. lia.
    + exists out. split; [exact Hout|]. apply H15; reflexivity.
  - destruct (C4_temperature_signed no_unicode_upper 1700000000000
                "c3a1b2d4e5f6" "cold room 2" (Some (-67))
                [x00; x05; xff; x9c; x01; xf4])
      as (out & Hout & _ & _ & H10).
    + unfold len. simpl. lia.
    + exists out. split; [exact Hout|]. apply H10; reflexivity.
Defined.

(** Ranging, 5 steps and temperature bytes 00 96, nothing else. *)
Lemma C5_partial_tail_witness :
  exists out,
    buildTH no_unicode_upper 1700000000000 "c3a1b2d4e5f6" "cold room 2" None
      [x00; x05; x00; x96]
    = Some (Some out, None) /\
    out !! "message_type" = Some (AString "h4pro-t&h") /\
    out !! "adv_interval_steps" = Some (AInt 5) /\
    out !! "adv_interval_ms" = Some (AInt 500) /\
    out !! "temperature" = Some (AFloat64 15) /\
    out !! "humidity" = None /\
    out !! "batt_vol" = None /\
    out !! "device_type" = None.
Proof.
  apply (C5_partial_tail no_unicode_upper 1700000000000 "c3a1b2d4e5f6"
           "cold room 2" None [x00; x05; x00; x96]).
  reflexivity.
Defined.

(** A full frame with its embedded MAC, and the same nine bytes followed by
    other bytes. *)
Lemma C6_tail_ignored_witness :
  exists out,
    buildTH no_unicode_upper 1700000000000 "c3a1b2d4e5f6" "cold room 2"
      (Some (-67))
      [x00; x05; x00; x96; x01; xf4; x0b; xb8; x01;
       xaa; xbb; xcc; xdd; xee; xff]
    = Some (Some out, None) /\
    buildTH no_unicode_upper 1700000000000 "c3a1b2d4e5f6" "cold room 2"
      (Some (-67))
      [x00; x05; x00; x96; x01; xf4; x0b; xb8; x01; x11; x22]
    = Some (Some out, None).
Proof.
  apply (C6_tail_ignored no_unicode_upper 1700000000000 "c3a1b2d4e5f6"
           "cold room 2" (Some (-67))).
  - unfold len. simpl. lia.
  - unfold len. simpl. lia.
  - reflexivity.
Defined.

(** Frame type 0xFF. *)
Lemma C7_unknown_frame_type_witness :
  ParseH4ProToOutput no_unicode_upper xff [x00; x05; x00; x96] 1700000000000
    "c3a1b2d4e5f6" "cold room 2" (Some (-67))
  = Some (None, Some "unknown H4 Pro frame_type 0xFF").
Proof.
  apply (C7_unknown_frame_type no_unicode_upper 1700000000000 "c3a1b2d4e5f6"
           "cold room 2" (Some (-67)) xff [x00; x05; x00; x96]).
  - discriminate.
  - discriminate.
Defined.

(** A full Info frame with firmware value 7, and one with value 0. *)
Lemma C8_firmware_version_witness :
  (exists out,
     buildInfo no_unicode_upper 1700000000000 "c3a1b2d4e5f6" "cold room 2"
       (Some (-67))
       [x00; x05; x0b; xb8; x01; x02; xaa; xbb; xcc; xdd; xee; xff; x00; x07]
     = Some (Some out, None) /\
     out !! "firmware_ver" = Some (AString "V0.0.7")) /\
  (exists out,
     buildInfo no_unicode_upper 1700000000000 "c3a1b2d4e5f6" "cold room 2"
       (Some (-67))
       [x00; x05; x0b; xb8; x01; x02; xaa; xbb; xcc; xdd; xee; xff; x00; x00]
     = Some (Some out, None) /\
     out !! "firmware_ver" = Some (AString "V0.0.0")).
Proof.
  split.
  - destruct (C8_firmware_version no_unicode_upper 1700000000000
                "c3a1b2d4e5f6" "cold room 2" (Some (-67))
                [x00; x05; x0b; xb8; x01; x02; xaa; xbb; xcc; xdd; xee; xff;
                 x00; x07])
      as (out & Hout & _ & H7 & _).
    + unfold len. simpl. lia.
    + exists out. split; [exact Hout|]. apply H7. reflexivity.
  - destruct (C8_firmware_version no_unicode_upper 1700000000000
                "c3a1b2d4e5f6" "cold room 2" (Some (-67))
                [x00; x05; x0b; xb8; x01; x02; xaa; xbb; xcc; xdd; xee; xff;
                 x00; x00])
      as (out & Hout & _ & _ & H0).
    + unfold len. simpl. lia.
    + exists out. split; [exact Hout|]. apply H0. reflexivity.
Defined.

(** An Info frame cut after two bytes of its embedded MAC, AA BB: the
    firmware version is read from them, 0xAABB = 43707. *)
Lemma C10_firmware_from_truncated_mac_witness :
  exists out,
    buildInfo no_unicode_upper 1700000000000 "c3a1b2d4e5f6" "cold room 2"
      (Some (-67)) [x00; x05; x0b; xb8; x01; x02; xaa; xbb]
    = Some (Some out, None) /\
    out !! "firmware_ver" = Some (AString "V0.0.43707").
Proof.
  apply (C10_firmware_from_truncated_mac no_unicode_upper 1700000000000
           "c3a1b2d4e5f6" "cold room 2" (Some (-67))
           [x00; x05; x0b; xb8; x01; x02; xaa; xbb]).
  unfold len. simpl. lia.
Defined.

(** * Further properties of the code *)

(** ** The scanner *)

Lemma idx_app_l {A} (l more : list A) (i : Z) (x : A) :
  idx l i = Some x -> idx (l ++ more) i = Some x.
Proof.
  unfold idx. destruct (i <? 0); [discriminate|].
  intros H. now apply lookup_app_l_Some.
Qed.

Lemma len_app {A} (l more : list A) : len (l ++ more) = len l + len more.
Proof. unfold len. rewrite length_app. lia. Qed.

Lemma slice_app_l {A} (l more : list A) (lo hi : Z) :
  0 <= lo -> lo <= hi -> hi <= len l ->
  slice (l ++ more) lo hi = slice l lo hi.
Proof.
  intros H0 H1 H2. pose proof (len_nonneg more).
  rewrite !slice_in_range by (rewrite ?len_app; lia).
  f_equal. unfold len in *. rewrite drop_app_le by lia.
  rewrite take_app_le; [reflexivity|]. rewrite length_drop. lia.
Qed.

Lemma walk_app (raw more : list byte) (i : Z) :
  walk raw i -> walk (raw ++ more) i.
Proof.
  induction 1 as [|i lb typ Hw IH Hlb Htyp Hnz Hfit Hne]; [constructor|].
  apply walk_next with (typ := typ); auto using idx_app_l.
  rewrite len_app. pose proof (len_nonneg more). lia.
Qed.

Section ScannerFacts.

Variable unicode_ToUpper : string -> string.

(** What a successful scan has found. *)
Lemma scanAD_ok_inv (raw : list byte) (i : Z) (u : string) (frameType : byte)
    (rest : list byte) :
  walk raw i ->
  scanAD unicode_ToUpper raw i = Some (u, frameType, rest, true) ->
  exists j lb lsb msb,
    walk raw j /\
    idx raw j = Some lb /\ idx raw (j + 1) = Some x16 /\
    4 <= int lb /\ j + 1 + int lb <= len raw /\
    idx raw (j + 2) = Some lsb /\ idx raw (j + 3) = Some msb /\
    u = fmt_02X msb ++ fmt_02X lsb /\
    slice raw (j + 4) (j + 1 + int lb) = Some (frameType :: rest).
Proof.
  remember (Z.to_nat (len raw - i)) as n eqn:Hn. revert i Hn.
  induction n as [n IH] using lt_wf_ind. intros i Hn Hw Hscan.
  pose proof (walk_nonneg _ _ Hw) as Hi.
  destruct (Z_lt_dec i (len raw)) as [Hlt|Hge];
    [|rewrite scanAD_done in Hscan by lia; discriminate].
  pose proof (idx_in_range raw i ltac:(lia)) as Hlb.
  pose proof (int_range (byteAt raw i)) as Hr.
  destruct (Z.eq_dec (int (byteAt raw i)) 0) as [H0|Hnz];
    [rewrite (scanAD_malformed _ raw i _ Hlb) in Hscan by auto; discriminate|].
  destruct (Z_lt_dec (len raw) (i + 1 + int (byteAt raw i))) as [Hover|Hfit];
    [rewrite (scanAD_malformed _ raw i _ Hlb) in Hscan by auto; discriminate|].
  pose proof (idx_in_range raw (i + 1) ltac:(lia)) as Htyp.
  destruct (Byte.byte_eq_dec (byteAt raw (i + 1)) x16) as [E|Hne].
  - rewrite E in Htyp.
    destruct (Z_lt_dec (int (byteAt raw i)) 4) as [Hshort|Hlong];
      [rewrite (scanAD_short16 _ raw i _ Hlb Htyp) in Hscan by auto; discriminate|].
    pose proof (idx_in_range raw (i + 2) ltac:(lia)) as Hlsb.
    pose proof (idx_in_range raw (i + 3) ltac:(lia)) as Hmsb.
    destruct (scanAD_match unicode_ToUpper raw i _ _ _ Hlb Htyp
                ltac:(lia) ltac:(lia) Hlsb Hmsb)
      as (data & Hdata & Hlen & Heq).
    rewrite Heq in Hscan. injection Hscan as <- <- <-.
    exists i, (byteAt raw i), (byteAt raw (i + 2)), (byteAt raw (i + 3)).
    repeat (split; [solve [auto|lia]|]).
    rewrite Hdata. destruct data as [|d data]; [|reflexivity].
    unfold len in Hlen. simpl in Hlen. lia.
  - rewrite (scanAD_skip _ raw i _ _ Hlb Htyp) in Hscan by (auto; lia).
    apply (IH (Z.to_nat (len raw - (i + 1 + int (byteAt raw i)))))
      with (i := i + 1 + int (byteAt raw i)); try lia; [|exact Hscan].
    apply walk_next with (typ := byteAt raw (i + 1)); auto; lia.
Qed.

(** X1: whenever the scanner answers [ok], the payload is valid hex and the
    walk reaches a structure of type 0x16 and length at least 4 that lies
    inside the payload; the UUID text is made of its third and second data
    bytes, and the frame type followed by [rest] is exactly the rest of
    that structure. *)
Theorem X1_scanner_match_sound (payloadHex u : string) (frameType : byte)
    (rest : list byte) :
  extractServiceData16 unicode_ToUpper payloadHex
  = Some (u, frameType, rest, true) ->
  exists raw j lb lsb msb,
    hex_DecodeString (strings_TrimSpace payloadHex) = Some raw /\
    walk raw j /\
    idx raw j = Some lb /\ idx raw (j + 1) = Some x16 /\
    4 <= int lb /\ j + 1 + int lb <= len raw /\
    idx raw (j + 2) = Some lsb /\ idx raw (j + 3) = Some msb /\
    u = fmt_02X msb ++ fmt_02X lsb /\
    slice raw (j + 4) (j + 1 + int lb) = Some (frameType :: rest).
Proof.
  unfold extractServiceData16.
  destruct (hex_DecodeString _) as [raw|]; [|discriminate].
  destruct (len raw =? 0); [discriminate|]. intros Hscan.
  destruct (scanAD_ok_inv raw 0 u frameType rest (walk_start raw) Hscan)
    as (j & lb & lsb & msb & H).
  exists raw, j, lb, lsb, msb. split; [reflexivity|exact H].
Qed.

(** X2: a structure of type 0x16 whose declared length is below 4 ends the
    scan with not-found, whatever follows it. *)
Theorem X2_scanner_short_service_data (payloadHex : string) (raw : list byte)
    (i : Z) (lb : byte) :
  hex_DecodeString (strings_TrimSpace payloadHex) = Some raw ->
  walk raw i ->
  idx raw i = Some lb ->
  idx raw (i + 1) = Some x16 ->
  int lb < 4 ->
  extractServiceData16 unicode_ToUpper payloadHex = Some notFound.
Proof.
  intros Hdec Hw Hlb Htyp Hshort. unfold extractServiceData16. rewrite Hdec.
  destruct (len raw =? 0); [reflexivity|].
  rewrite (scanAD_walk _ raw i Hw). now apply scanAD_short16 with (lb := lb).
Qed.

(** X3: the first match wins: bytes after the matched structure, well
    formed or not, do not change the answer. *)
Theorem X3_scanner_first_match (hex1 hex2 u : string) (raw more : list byte)
    (frameType : byte) (rest : list byte) :
  hex_DecodeString (strings_TrimSpace hex1) = Some raw ->
  hex_DecodeString (strings_TrimSpace hex2) = Some (raw ++ more)%list ->
  extractServiceData16 unicode_ToUpper hex1 = Some (u, frameType, rest, true) ->
  extractServiceData16 unicode_ToUpper hex2 = Some (u, frameType, rest, true).
Proof.
  intros Hdec1 Hdec2. unfold extractServiceData16. rewrite Hdec1, Hdec2.
  destruct (Z.eqb_spec (len raw) 0) as [|Hne]; [discriminate|]. intros Hscan.
  pose proof (len_nonneg raw). pose proof (len_nonneg more).
  destruct (Z.eqb_spec (len (raw ++ more)%list) 0) as [E|_];
    [rewrite len_app in E; lia|].
  destruct (scanAD_ok_inv raw 0 u frameType rest (walk_start raw) Hscan)
    as (j & lb & lsb & msb & Hw & Hlb & Htyp & H4 & Hfit & Hlsb & Hmsb & -> & Hdata).
  pose proof (walk_nonneg _ _ Hw) as Hj.
  rewrite (scanAD_walk _ _ j (walk_app raw more j Hw)).
  destruct (scanAD_match unicode_ToUpper (raw ++ more)%list j lb lsb msb)
    as (data & Hdata' & _ & ->); auto using idx_app_l.
  { rewrite len_app. lia. }
  rewrite slice_app_l, Hdata in Hdata' by lia. injection Hdata' as <-.
  reflexivity.
Qed.

(** X4: the scanner inverts the framing.  For an advertisement made of
    complete structures of other types, then the structure of type 0x16
    that carries a UUID, a frame type and a body of at most 251 bytes, then
    anything, the scanner returns that UUID (most significant byte first),
    that frame type and that body. *)
Theorem X4_scanner_inverts_framing (payloadHex : string)
    (before after body : list byte) (lsb msb frameType : byte) :
  hex_DecodeString (strings_TrimSpace payloadHex)
  = Some (before ++ serviceDataAD lsb msb frameType body ++ after)%list ->
  walk before (len before) ->
  len body <= 251 ->
  extractServiceData16 unicode_ToUpper payloadHex
  = Some (fmt_02X msb ++ fmt_02X lsb, frameType, body, true).
Proof.
  intros Hdec Hw Hbody. unfold extractServiceData16. rewrite Hdec.
  assert (Hlb : int (byte_of_N (N.of_nat (4 + length body))) = 4 + len body).
  { unfold int, byte_of_N. unfold len in Hbody |- *.
    rewrite N.mod_small by lia.
    destruct (Byte.of_N _) as [b|] eqn:E.
    - apply Byte.to_of_N in E. rewrite E. lia.
    - apply Byte.of_N_None_iff in E. lia. }
  set (ad := serviceDataAD lsb msb frameType body).
  pose proof (len_nonneg before) as Hb. pose proof (len_nonneg after) as Ha.
  pose proof (len_nonneg body) as Hbd.
  set (lb := byte_of_N (N.of_nat (4 + length body))) in *.
  assert (Hlen : len ad = 5 + len body).
  { unfold ad, serviceDataAD, len. simpl length. lia. }
  assert (Hidx : forall k x, idx ad k = Some x ->
            idx (before ++ ad ++ after)%list (len before + k) = Some x).
  { intros k x Hk. pose proof (idx_lt _ _ _ Hk) as Hr.
    unfold idx, len in *. destruct (Z.ltb_spec k 0); [lia|].
    destruct (Z.ltb_spec (Z.of_nat (length before) + k) 0); [lia|].
    rewrite lookup_app_r by lia.
    replace (Z.to_nat (Z.of_nat (length before) + k) - length before)%nat
      with (Z.to_nat k) by lia.
    now apply lookup_app_l_Some. }
  destruct (Z.eqb_spec (len (before ++ ad ++ after)%list) 0) as [E|_];
    [rewrite !len_app in E; lia|].
  rewrite (scanAD_walk _ _ (len before) (walk_app before _ _ Hw)).
  destruct (scanAD_match unicode_ToUpper (before ++ ad ++ after)%list
              (len before) lb lsb msb)
    as (data & Hdata & _ & ->).
  - rewrite <- (Z.add_0_r (len before)). now apply Hidx.
  - now apply Hidx.
  - lia.
  - rewrite !len_app. lia.
  - now apply Hidx.
  - now apply Hidx.
  - rewrite slice_in_range in Hdata by (rewrite ?len_app; lia).
    injection Hdata as <-.
    unfold len in *.
    replace (Z.to_nat (Z.of_nat (length before) + 4))
      with (length before + 4)%nat by lia.
    rewrite drop_app_add.
    replace (Z.to_nat (Z.of_nat (length before) + 1 + int lb
                       - (Z.of_nat (length before) + 4)))
      with (S (length body)) by lia.
    unfold ad, serviceDataAD. simpl. rewrite take_app_length. reflexivity.
Qed.

End ScannerFacts.

(** ** White space around the payload *)

Lemma codes_bounded (s : string) : Forall (fun c => (c < 256)%N) (codes s).
Proof.
  unfold codes. induction s as [|a s IH]; simpl; constructor; auto.
  apply N_ascii_bounded.
Qed.

Lemma of_codes_codes (s : string) : of_codes (codes s) = s.
Proof.
  unfold of_codes, codes. induction s as [|a s IH]; simpl; [reflexivity|].
  now rewrite ascii_N_embedding, IH.
Qed.

Lemma trimLeft_stops (l : list N) : stops_left (trimLeft l).
Proof.
  remember (length l) as n eqn:Hn. revert l Hn.
  induction n as [n IH] using lt_wf_ind. intros l ->.
  destruct l as [|a r1]; [exact I|]. cbn [trimLeft].
  destruct (asciiSpace a) eqn:Ea; [apply (IH (length r1)); simpl; lia|].
  destruct r1 as [|b r2]; [simpl; auto|].
  destruct (space2 a b) eqn:E2; [apply (IH (length r2)); simpl; lia|].
  destruct r2 as [|c r3]; [simpl; auto|].
  destruct (space3 a b c) eqn:E3; [apply (IH (length r3)); simpl; lia|].
  simpl. auto.
Qed.

Lemma trimLeftRev_stops (l : list N) : stops_right (trimLeftRev l).
Proof.
  remember (length l) as n eqn:Hn. revert l Hn.
  induction n as [n IH] using lt_wf_ind. intros l ->.
  destruct l as [|c r1]; [exact I|]. cbn [trimLeftRev].
  destruct (asciiSpace c) eqn:Ea; [apply (IH (length r1)); simpl; lia|].
  destruct r1 as [|b r2]; [simpl; auto|].
  destruct (space2 b c) eqn:E2; [apply (IH (length r2)); simpl; lia|].
  destruct r2 as [|a r3]; [simpl; auto|].
  destruct (space3 a b c) eqn:E3; [apply (IH (length r3)); simpl; lia|].
  simpl. auto.
Qed.

Lemma trimLeft_fixed (l : list N) : stops_left l -> trimLeft l = l.
Proof.
  destruct l as [|a [|b [|c r]]]; simpl; [reflexivity| | |].
  - now intros [-> _].
  - now intros (-> & -> & _).
  - now intros (-> & -> & ->).
Qed.

Lemma trimLeftRev_fixed (l : list N) : stops_right l -> trimLeftRev l = l.
Proof.
  destruct l as [|c [|b [|a r]]]; simpl; [reflexivity| | |].
  - now intros [-> _].
  - now intros (-> & -> & _).
  - now intros (-> & -> & ->).
Qed.

Lemma stops_left_prefix (l1 l2 : list N) : stops_left (l1 ++ l2) -> stops_left l1.
Proof.
  destruct l1 as [|a [|b [|c r]]]; simpl; auto.
  - now intros [-> _].
  - now intros (-> & -> & _).
Qed.

Lemma trimLeft_suffix (l : list N) : exists pre, l = (pre ++ trimLeft l)%list.
Proof.
  remember (length l) as n eqn:Hn. revert l Hn.
  induction n as [n IH] using lt_wf_ind. intros l ->.
  destruct l as [|a r1]; [now exists []|]. cbn [trimLeft].
  destruct (asciiSpace a).
  { destruct (IH (length r1) ltac:(simpl; lia) r1 eq_refl) as [pre Hp].
    exists (a :: pre). simpl. now rewrite <- Hp. }
  destruct r1 as [|b r2]; [now exists []|].
  destruct (space2 a b).
  { destruct (IH (length r2) ltac:(simpl; lia) r2 eq_refl) as [pre Hp].
    exists (a :: b :: pre). simpl. now rewrite <- Hp. }
  destruct r2 as [|c r3]; [now exists []|].
  destruct (space3 a b c); [|now exists []].
  destruct (IH (length r3) ltac:(simpl; lia) r3 eq_refl) as [pre Hp].
  exists (a :: b :: c :: pre). simpl. now rewrite <- Hp.
Qed.

Lemma trimLeftRev_suffix (l : list N) : exists pre, l = (pre ++ trimLeftRev l)%list.
Proof.
  remember (length l) as n eqn:Hn. revert l Hn.
  induction n as [n IH] using lt_wf_ind. intros l ->.
  destruct l as [|a r1]; [now exists []|]. cbn [trimLeftRev].
  destruct (asciiSpace a).
  { destruct (IH (length r1) ltac:(simpl; lia) r1 eq_refl) as [pre Hp].
    exists (a :: pre). simpl. now rewrite <- Hp. }
  destruct r1 as [|b r2]; [now exists []|].
  destruct (space2 b a).
  { destruct (IH (length r2) ltac:(simpl; lia) r2 eq_refl) as [pre Hp].
    exists (a :: b :: pre). simpl. now rewrite <- Hp. }
  destruct r2 as [|c r3]; [now exists []|].
  destruct (space3 c b a); [|now exists []].
  destruct (IH (length r3) ltac:(simpl; lia) r3 eq_refl) as [pre Hp].
  exists (a :: b :: c :: pre). simpl. now rewrite <- Hp.
Qed.

(** The bytes [strings.TrimSpace] keeps. *)
Lemma codes_TrimSpace (s : string) :
  codes (strings_TrimSpace s) = rev (trimLeftRev (rev (trimLeft (codes s)))).
Proof.
  unfold strings_TrimSpace. apply codes_of_codes.
  pose proof (codes_bounded s) as Hb.
  destruct (trimLeft_suffix (codes s)) as [p1 H1].
  destruct (trimLeftRev_suffix (rev (trimLeft (codes s)))) as [p2 H2].
  rewrite H1 in Hb. apply Forall_app in Hb as [_ Hb].
  apply Forall_rev in Hb. rewrite H2 in Hb. apply Forall_app in Hb as [_ Hb].
  now apply Forall_rev.
Qed.

Lemma strings_TrimSpace_idempotent (s : string) :
  strings_TrimSpace (strings_TrimSpace s) = strings_TrimSpace s.
Proof.
  unfold strings_TrimSpace at 1. rewrite codes_TrimSpace.
  set (L := trimLeft (codes s)).
  destruct (trimLeftRev_suffix (rev L)) as [p Hp].
  assert (HL : L = (rev (trimLeftRev (rev L)) ++ rev p)%list).
  { rewrite <- rev_app_distr, <- Hp. symmetry. apply rev_involutive. }
  rewrite trimLeft_fixed.
  - rewrite rev_involutive, (trimLeftRev_fixed _ (trimLeftRev_stops _)).
    reflexivity.
  - apply stops_left_prefix with (l2 := rev p). rewrite <- HL.
    apply trimLeft_stops.
Qed.

Section WhiteSpaceFacts.

Variable unicode_ToUpper : string -> string.

(** X5: trimming the payload first, as [normalize] does, changes nothing
    for the scanner: it trims again to the same bytes. *)
Theorem X5_scanner_trims_once (payloadHex : string) :
  extractServiceData16 unicode_ToUpper (strings_TrimSpace payloadHex)
  = extractServiceData16 unicode_ToUpper payloadHex.
Proof.
  unfold extractServiceData16. now rewrite strings_TrimSpace_idempotent.
Qed.

End WhiteSpaceFacts.

(** ** The cursor reads and the fields of a frame *)

Lemma be16_range (hi lo : byte) : 0 <= be16 hi lo < 65536.
Proof.
  unfold be16. pose proof (int_range hi). pose proof (int_range lo). lia.
Qed.

Lemma be16_signed_int16 (hi lo : byte) : be16_signed hi lo = int16 (be16 hi lo).
Proof.
  pose proof (be16_range hi lo) as Hr. unfold be16_signed, int16.
  destruct (Z.ltb_spec (be16 hi lo) 32768).
  - rewrite Z.mod_small by lia. lia.
  - replace (be16 hi lo + 32768) with ((be16 hi lo - 32768) + 1 * 65536) by lia.
    rewrite Z.mod_add by lia. rewrite Z.mod_small by lia. lia.
Qed.

(** X6: on the same bytes and cursor [u16be] and [i16be] succeed together,
    exactly when two bytes remain; then the cursor moves by 2, the unsigned
    value is below 65536 and the signed one is its 16-bit two's complement
    reading; otherwise the cursor stays and the value is 0.  Neither
    panics. *)
Theorem X6_fixed_width_reads (b : list byte) (off : Z) :
  0 <= off ->
  exists (u s : Z) (ok : bool),
    u16be b off = Some (u, ok, if ok then off + 2 else off) /\
    i16be b off = Some (s, ok, if ok then off + 2 else off) /\
    (ok = true <-> off + 2 <= len b) /\
    0 <= u < 65536 /\
    -32768 <= s < 32768 /\
    s = int16 u /\
    (ok = false -> u = 0 /\ s = 0).
Proof.
  intros Hoff. destruct (Z_lt_dec (len b) (off + 2)) as [Hshort|Hfit].
  - exists 0, 0, false. rewrite u16be_short, i16be_short by lia.
    repeat split; try reflexivity; try lia; try discriminate.
  - exists (be16 (byteAt b off) (byteAt b (off + 1))),
           (be16_signed (byteAt b off) (byteAt b (off + 1))), true.
    rewrite u16be_fits, i16be_fits by lia.
    pose proof (be16_range (byteAt b off) (byteAt b (off + 1))) as Hr.
    rewrite be16_signed_int16. unfold int16.
    pose proof (Z.mod_pos_bound (be16 (byteAt b off) (byteAt b (off + 1)) + 32768)
                  65536 ltac:(lia)).
    repeat split; try reflexivity; try lia; try discriminate.
Qed.

(** Evaluate the lookups of a key in a map built by insertions. *)
Ltac eval_lookups :=
  repeat match goal with
    | |- context [lookup ?k ?m] =>
        lazymatch type of m with
        | gmap string any =>
            first
              [ replace (lookup k m) with (@None any) by reflexivity
              | let H := fresh "Hk" in
                eassert (H : lookup k m = Some _) by reflexivity;
                rewrite H; clear H ]
        end
    end.

Ltac presence :=
  repeat match goal with
    | |- _ /\ _ => split
    | |- is_Some (Some _) <-> _ => split; [intros _; lia | intros _; eauto]
    | |- is_Some None <-> _ =>
        split; [intros [? Habs]; discriminate Habs | intros; lia]
    end.

Lemma fmt_08b_byte (b : byte) :
  String.length (fmt_08b (int b)) = 8%nat /\
  binary_digits (fmt_08b (int b)) = true /\
  binary_value (fmt_08b (int b)) = int b.
Proof.
  destruct b; repeat split; vm_compute; reflexivity.
Qed.

Section FrameFacts.

Variable unicode_ToUpper : string -> string.
Variables (ts : Z) (mac deviceName : string) (rssi : option Z).

(** X7: which fields a Temperature & Humidity payload yields depends on
    its length alone.  The interval needs 2 bytes, the temperature 4, the
    humidity 6, the battery voltage 8; the device type is emitted for 9
    bytes or more and also for 3, 5 and 7 bytes. *)
Theorem X7_TH_fields_by_length (p : list byte) :
  exists out,
    buildTH unicode_ToUpper ts mac deviceName rssi p = Some (Some out, None) /\
    (is_Some (out !! "adv_interval_steps") <-> 2 <= len p) /\
    (is_Some (out !! "adv_interval_ms") <-> 2 <= len p) /\
    (is_Some (out !! "temperature") <-> 4 <= len p) /\
    (is_Some (out !! "humidity") <-> 6 <= len p) /\
    (is_Some (out !! "batt_vol") <-> 8 <= len p) /\
    (is_Some (out !! "device_type")
     <-> len p = 3 \/ len p = 5 \/ len p = 7 \/ 9 <= len p).
Proof.
  pose proof (len_nonneg p) as Hlen. unfold buildTH. run_decoder.
  all: eexists; (split; [reflexivity|]).
  all: destruct rssi; eval_lookups; presence.
Qed.

(** X8: in a Temperature & Humidity payload of 3, 5 or 7 bytes the last
    byte, which is the first half of a two-byte field that does not fit, is
    emitted as the device type. *)
Theorem X8_TH_device_type_misaligned (p : list byte) :
  len p = 3 \/ len p = 5 \/ len p = 7 ->
  exists out,
    buildTH unicode_ToUpper ts mac deviceName rssi p = Some (Some out, None) /\
    out !! "device_type" = Some (AInt (int (byteAt p (len p - 1)))).
Proof.
  intros [Hlen|[Hlen|Hlen]]; unfold buildTH; run_decoder.
  all: eexists; (split; [reflexivity|]).
  all: destruct rssi; eval_lookups.
  all: match goal with H : len _ = _ |- _ => rewrite H end; reflexivity.
Qed.

(** X9: a complete Temperature & Humidity frame (9 bytes or more) yields
    the interval from byte 1 (and 100 ms a step), the temperature from
    bytes 2-3 (signed, tenths), the humidity from bytes 4-5 (unsigned,
    tenths), the battery voltage from bytes 6-7 (unsigned) and the device
    type from byte 8. *)
Theorem X9_TH_full_frame (p : list byte) :
  9 <= len p ->
  exists out,
    buildTH unicode_ToUpper ts mac deviceName rssi p = Some (Some out, None) /\
    out !! "adv_interval_steps" = Some (AInt (int (byteAt p 1))) /\
    out !! "adv_interval_ms" = Some (AInt (int (byteAt p 1) * 100)) /\
    out !! "temperature"
    = Some (AFloat64 (float64 (be16_signed (byteAt p 2) (byteAt p 3)) / 10)) /\
    out !! "humidity"
    = Some (AFloat64 (float64 (be16 (byteAt p 4) (byteAt p 5)) / 10)) /\
    out !! "batt_vol" = Some (AInt (be16 (byteAt p 6) (byteAt p 7))) /\
    out !! "device_type" = Some (AInt (int (byteAt p 8))).
Proof.
  intros Hlen. unfold buildTH. run_decoder.
  all: eexists; (split; [reflexivity|]).
  all: destruct rssi; repeat split; reflexivity.
Qed.

#[local] Set Warnings "-clear-no-such-hyp".

(** The shape of every result of [buildTH]. *)
Lemma buildTH_shape (p : list byte) :
  exists out,
    buildTH unicode_ToUpper ts mac deviceName rssi p = Some (Some out, None) /\
    out !! "message_type" = Some (AString "h4pro-t&h") /\
    dom out ⊆ TH_keys.
Proof.
  pose proof (len_nonneg p) as Hlen. unfold buildTH. run_decoder.
  all: eexists; (split; [reflexivity|]).
  all: destruct rssi; (split; [reflexivity|]).
  all: rewrite ?dom_insert_L, dom_singleton_L; unfold TH_keys; set_solver.
Qed.

Lemma buildInfo_shape (p : list byte) :
  exists out,
    buildInfo unicode_ToUpper ts mac deviceName rssi p = Some (Some out, None) /\
    out !! "message_type" = Some (AString "h4pro-info") /\
    dom out ⊆ Info_keys.
Proof.
  pose proof (len_nonneg p) as Hlen. unfold buildInfo. run_decoder.
  all: eexists; (split; [reflexivity|]).
  all: destruct rssi; (split; [reflexivity|]).
  all: rewrite ?dom_insert_L, dom_singleton_L; unfold Info_keys; set_solver.
Qed.

(** X10: both decoders emit only the keys of the envelope and of their
    frame, whatever the payload. *)
Theorem X10_decoders_emit_known_keys (p : list byte) :
  (exists out,
     buildTH unicode_ToUpper ts mac deviceName rssi p = Some (Some out, None) /\
     dom out ⊆ TH_keys) /\
  (exists out,
     buildInfo unicode_ToUpper ts mac deviceName rssi p = Some (Some out, None) /\
     dom out ⊆ Info_keys).
Proof.
  split.
  - destruct (buildTH_shape p) as (out & H & _ & Hd). eauto.
  - destruct (buildInfo_shape p) as (out & H & _ & Hd). eauto.
Qed.

(** X11: which fields an Info payload yields depends on its length alone.
    The interval needs 2 bytes, the battery voltage 4, the switch status 6;
    the device property is emitted for 5 bytes or more and also for 3; the
    firmware version is emitted for 14 bytes or more and also for 8 to 11
    bytes, and not for 12 and 13. *)
Theorem X11_Info_fields_by_length (p : list byte) :
  exists out,
    buildInfo unicode_ToUpper ts mac deviceName rssi p = Some (Some out, None) /\
    (is_Some (out !! "adv_interval_steps") <-> 2 <= len p) /\
    (is_Some (out !! "adv_interval_ms") <-> 2 <= len p) /\
    (is_Some (out !! "batt_vol") <-> 4 <= len p) /\
    (is_Some (out !! "device_prop") <-> len p = 3 \/ 5 <= len p) /\
    (is_Some (out !! "device_prop_bits") <-> len p = 3 \/ 5 <= len p) /\
    (is_Some (out !! "switch_status") <-> 6 <= len p) /\
    (is_Some (out !! "switch_status_bits") <-> 6 <= len p) /\
    (is_Some (out !! "firmware_ver") <-> 8 <= len p <= 11 \/ 14 <= len p).
Proof.
  pose proof (len_nonneg p) as Hlen. unfold buildInfo. run_decoder.
  all: eexists; (split; [reflexivity|]).
  all: destruct rssi; eval_lookups; presence.
Qed.

(** X12: a complete Info frame (14 bytes or more) yields the interval from
    byte 1, the battery voltage from bytes 2-3, the device property from
    byte 4 and the switch status from byte 5, each with its eight binary
    digits, and skips bytes 6-11. *)
Theorem X12_Info_full_frame (p : list byte) :
  14 <= len p ->
  exists out,
    buildInfo unicode_ToUpper ts mac deviceName rssi p = Some (Some out, None) /\
    out !! "adv_interval_steps" = Some (AInt (int (byteAt p 1))) /\
    out !! "adv_interval_ms" = Some (AInt (int (byteAt p 1) * 100)) /\
    out !! "batt_vol" = Some (AInt (be16 (byteAt p 2) (byteAt p 3))) /\
    out !! "device_prop" = Some (AInt (int (byteAt p 4))) /\
    out !! "device_prop_bits" = Some (AString (fmt_08b (int (byteAt p 4)))) /\
    out !! "switch_status" = Some (AInt (int (byteAt p 5))) /\
    out !! "switch_status_bits" = Some (AString (fmt_08b (int (byteAt p 5)))) /\
    out !! "firmware_ver"
    = Some (AString ("V0.0." ++ fmt_d (be16 (byteAt p 12) (byteAt p 13)))).
Proof.
  intros Hlen. unfold buildInfo. run_decoder.
  all: eexists; (split; [reflexivity|]).
  all: destruct rssi; repeat split; reflexivity.
Qed.

(** X13: whenever an Info reading has [device_prop] (or [switch_status]),
    it has the matching [_bits] string, of exactly eight characters, each
    of them the digit 0 or the digit 1, whose value as a binary numeral,
    most significant digit first, is that integer. *)
Theorem X13_Info_bits_round_trip (p : list byte) (out : gmap string any) :
  buildInfo unicode_ToUpper ts mac deviceName rssi p = Some (Some out, None) ->
  (forall v, out !! "device_prop" = Some (AInt v) ->
     exists s, out !! "device_prop_bits" = Some (AString s) /\
               String.length s = 8%nat /\ binary_digits s = true /\
               binary_value s = v) /\
  (forall v, out !! "switch_status" = Some (AInt v) ->
     exists s, out !! "switch_status_bits" = Some (AString s) /\
               String.length s = 8%nat /\ binary_digits s = true /\
               binary_value s = v).
Proof.
  pose proof (len_nonneg p) as Hlen. unfold buildInfo. run_decoder.
  all: intros Hout; injection Hout as <-.
  all: split; intros v; destruct rssi; eval_lookups; intros Hv;
    try discriminate Hv; injection Hv as <-.
  all: eexists; (split; [reflexivity|]); apply fmt_08b_byte.
Qed.

(** X14: the dispatch never panics and returns either a reading and no
    error, for frame types 0x70 and 0x40, or no reading and an error, for
    every other frame type; the reading is tagged by the frame type. *)
Theorem X14_dispatch_reading_or_error (frameType : byte) (p : list byte) :
  (exists out,
     ParseH4ProToOutput unicode_ToUpper frameType p ts mac deviceName rssi
     = Some (Some out, None) /\
     (frameType = x70 /\ out !! "message_type" = Some (AString "h4pro-t&h")
      \/ frameType = x40 /\ out !! "message_type" = Some (AString "h4pro-info")))
  \/
  (exists msg,
     ParseH4ProToOutput unicode_ToUpper frameType p ts mac deviceName rssi
     = Some (None, Some msg) /\
     frameType <> x70 /\ frameType <> x40).
Proof.
  unfold ParseH4ProToOutput.
  destruct (Byte.eqb frameType x70) eqn:E70.
  { apply Byte.byte_dec_bl in E70. left.
    destruct (buildTH_shape p) as (out & H & Hmt & _). eauto 6. }
  destruct (Byte.eqb frameType x40) eqn:E40.
  { apply Byte.byte_dec_bl in E40. left.
    destruct (buildInfo_shape p) as (out & H & Hmt & _). eauto 6. }
  right. eexists. split; [reflexivity|].
  split; intros ->; discriminate.
Qed.

(** X15: the event type derived from a reading of the dispatch is the tag
    of its frame, whatever the hardware name and the payload: no decoder
    emits a [type] key, and [message_type] is never empty. *)
Theorem X15_event_type_of_reading (devHW : string) (frameType : byte)
    (p : list byte) (out : gmap string any) :
  ParseH4ProToOutput unicode_ToUpper frameType p ts mac deviceName rssi
  = Some (Some out, None) ->
  deriveEventType devHW frameType (Some out)
  = if Byte.eqb frameType x70 then "h4pro-t&h" else "h4pro-info".
Proof.
  unfold ParseH4ProToOutput.
  destruct (Byte.eqb frameType x70) eqn:E70.
  - destruct (buildTH_shape p) as (out' & -> & Hmt & Hdom).
    intros Hout; injection Hout as <-.
    assert (Htype : out' !! "type" = None).
    { apply not_elem_of_dom. intros Hin. apply Hdom in Hin. revert Hin.
      unfold TH_keys. set_solver. }
    unfold deriveEventType, nonEmptyString. now rewrite Htype, Hmt.
  - destruct (Byte.eqb frameType x40) eqn:E40; [|discriminate].
    destruct (buildInfo_shape p) as (out' & -> & Hmt & Hdom).
    intros Hout; injection Hout as <-.
    assert (Htype : out' !! "type" = None).
    { apply not_elem_of_dom. intros Hin. apply Hdom in Hin. revert Hin.
      unfold Info_keys. set_solver. }
    unfold deriveEventType, nonEmptyString. now rewrite Htype, Hmt.
Qed.

End FrameFacts.

(** ** The event type *)

Lemma append_nonempty_r (s1 s2 : string) : s2 <> "" -> s1 ++ s2 <> "".
Proof.
  destruct s1; simpl; [auto|discriminate].
Qed.

(** X16: the event type is never the empty string, whatever reading or
    other value is passed and for every hardware name. *)
Theorem X16_event_type_nonempty (devHW : string) (frameType : byte)
    (parsed : option (gmap string any)) :
  deriveEventType devHW frameType parsed <> "".
Proof.
  assert (Hfb : slugDeviceFamily devHW ++ "/0x" ++ fmt_02X frameType <> "").
  { apply append_nonempty_r. discriminate. }
  assert (Hne : forall m k v, nonEmptyString m k = Some v -> v <> "").
  { intros m k v. unfold nonEmptyString.
    destruct (m !! k) as [[w| | |]|]; try discriminate.
    destruct (String.eqb_spec w ""); [discriminate|]. now intros [= <-]. }
  unfold deriveEventType. destruct parsed as [m|]; [|exact Hfb].
  destruct (nonEmptyString m "type") eqn:E1; [eauto|].
  destruct (nonEmptyString m "message_type") eqn:E2; [eauto|].
  destruct (nonEmptyString m "messageType") eqn:E3; [eauto|exact Hfb].
Qed.

(** ** The checks of the request handler *)

Lemma isHexDigit_fromHexChar (c : N) :
  isHexDigit c = true <-> is_Some (fromHexChar c).
Proof.
  unfold isHexDigit, fromHexChar.
  destruct (N.leb_spec 48 c), (N.leb_spec c 57), (N.leb_spec 97 c),
    (N.leb_spec c 102), (N.leb_spec 65 c), (N.leb_spec c 70);
    simpl; split; intros Hx; try discriminate; eauto; try lia;
    destruct Hx as [? Hx]; discriminate.
Qed.

Lemma isHexDigit_plain (c : N) : isHexDigit c = true -> plain c.
Proof.
  unfold isHexDigit, plain, asciiSpace.
  destruct (N.leb_spec 48 c), (N.leb_spec c 57), (N.leb_spec 97 c),
    (N.leb_spec c 102), (N.leb_spec 65 c), (N.leb_spec c 70);
    simpl; try discriminate; intros _;
    (split; [|lia]);
    destruct (N.leb_spec 9 c), (N.leb_spec c 13), (N.eqb_spec c 32);
    simpl; try reflexivity; lia.
Qed.

(** [hex.Decode] succeeds exactly on an even number of hexadecimal digits,
    and gives one byte for two digits. *)
Lemma hex_Decode_Some (l : list N) (raw : list byte) :
  hex_Decode l = Some raw ->
  forallb isHexDigit l = true /\ length l = (2 * length raw)%nat.
Proof.
  remember (length l) as n eqn:Hn. revert l raw Hn.
  induction n as [n IH] using lt_wf_ind. intros l raw ->.
  destruct l as [|p [|q l]]; cbn [hex_Decode].
  - intros [= <-]. auto.
  - discriminate.
  - pose proof (isHexDigit_fromHexChar p) as Hp.
    pose proof (isHexDigit_fromHexChar q) as Hq.
    destruct (fromHexChar p) as [a|]; [|discriminate].
    destruct (fromHexChar q) as [b|]; [|discriminate].
    destruct (hex_Decode l) as [dst|] eqn:E; [|discriminate].
    intros [= <-].
    destruct (IH (length l) ltac:(simpl; lia) l dst eq_refl E) as [Hall Hlen].
    cbn [forallb length]. rewrite (proj2 Hp), (proj2 Hq), Hall by eauto.
    split; [reflexivity|lia].
Qed.

Lemma hex_Decode_is_Some (l : list N) :
  forallb isHexDigit l = true -> Nat.Even (length l) -> is_Some (hex_Decode l).
Proof.
  remember (length l) as n eqn:Hn. revert l Hn.
  induction n as [n IH] using lt_wf_ind. intros l ->.
  destruct l as [|p [|q l]]; cbn [hex_Decode forallb length].
  - eauto.
  - intros _ [k Hk]. lia.
  - intros Hall [k Hk].
    apply andb_prop in Hall as [Hp Hall]. apply andb_prop in Hall as [Hq Hall].
    apply isHexDigit_fromHexChar in Hp as [a ->].
    apply isHexDigit_fromHexChar in Hq as [b ->].
    destruct (IH (length l) ltac:(simpl; lia) l eq_refl Hall) as [dst ->];
      [exists (k - 1)%nat; lia|eauto].
Qed.

Lemma slen_length (s : string) : slen s = Z.of_nat (String.length s).
Proof.
  unfold slen, len, codes. rewrite length_map. f_equal.
  induction s as [|a s IH]; simpl; congruence.
Qed.

Lemma slen_zero (s : string) : slen s = 0 <-> s = "".
Proof.
  rewrite slen_length. destruct s; simpl; split; intros H;
    try reflexivity; try discriminate; lia.
Qed.

Lemma strings_TrimSpace_plain (s : string) :
  Forall plain (codes s) -> strings_TrimSpace s = s.
Proof.
  intros Hp. unfold strings_TrimSpace. rewrite trim_plain by assumption.
  apply of_codes_codes.
Qed.

Lemma forallb_hex_plain (l : list N) :
  forallb isHexDigit l = true -> Forall plain l.
Proof.
  rewrite forallb_forall, List.Forall_forall.
  intros H c Hc. apply isHexDigit_plain. auto.
Qed.

Lemma isLikelyHex_inv (s : string) :
  isLikelyHex s = true ->
  s <> "" /\ forallb isHexDigit (codes s) = true /\ Nat.Even (length (codes s)).
Proof.
  unfold isLikelyHex. pose proof (slen_zero s) as Hz.
  destruct (Z.eqb_spec (slen s) 0) as [E0|Hne]; simpl; [discriminate|].
  destruct (Z.eqb_spec (slen s mod 2) 0) as [Eev|Hodd]; simpl; [|discriminate].
  intros Hall. split; [tauto|]. split; [exact Hall|].
  exists (Z.to_nat (slen s / 2)).
  pose proof (Z.div_mod (slen s) 2 ltac:(lia)). unfold slen, len in *. lia.
Qed.

(** X17: [isLikelyHex] accepts exactly the non-empty strings that
    [hex.DecodeString] decodes. *)
Theorem X17_isLikelyHex_iff_decodes (s : string) :
  isLikelyHex s = true <-> s <> "" /\ is_Some (hex_DecodeString s).
Proof.
  unfold isLikelyHex, hex_DecodeString.
  pose proof (slen_zero s) as Hz. pose proof (slen_length s) as Hl.
  assert (Hlen : length (codes s) = String.length s).
  { unfold slen, len in Hl. lia. }
  split.
  - intros H. apply isLikelyHex_inv in H as (Hne & Hall & Hev).
    split; [exact Hne|]. now apply hex_Decode_is_Some.
  - intros [Hne [raw Hraw]]. apply hex_Decode_Some in Hraw as [Hall Hraw].
    destruct (Z.eqb_spec (slen s) 0) as [E0|_]; [tauto|].
    replace (slen s mod 2) with 0; [exact Hall|].
    unfold slen, len. rewrite Hraw.
    replace (Z.of_nat (2 * length raw)) with (Z.of_nat (length raw) * 2) by lia.
    symmetry. apply Z.mod_mul. lia.
Qed.

Section HandlerFacts.

Variable unicode_ToUpper : string -> string.

(** X18: a message that [validate] accepts has a positive id and
    timestamp, a device MAC, and a payload that trims to itself and decodes
    to at least one byte, two digits a byte: the hex check of the handler
    cannot fail on it and the scanner goes straight to its loop. *)
Theorem X18_validated_payload_decodes (m : MQTTMessage) :
  validate m = None ->
  0 < MessageID m /\ 0 < Timestamp m /\ DeviceMAC m <> "" /\
  strings_TrimSpace (Payload m) = Payload m /\
  exists raw,
    hex_DecodeString (Payload m) = Some raw /\
    raw <> [] /\
    slen (Payload m) = 2 * len raw /\
    extractServiceData16 unicode_ToUpper (Payload m)
    = scanAD unicode_ToUpper raw 0.
Proof.
  unfold validate.
  destruct (Z.leb_spec (MessageID m) 0); [discriminate|].
  destruct (String.eqb_spec (DeviceMAC m) ""); [discriminate|].
  destruct (String.eqb_spec (Payload m) "") as [|Hpay]; [discriminate|].
  destruct (Z.leb_spec (Timestamp m) 0); [discriminate|].
  destruct (isLikelyHex (Payload m)) eqn:Hhex; [|discriminate]. intros _.
  destruct (isLikelyHex_inv _ Hhex) as (_ & Hall & Hev).
  assert (Htrim : strings_TrimSpace (Payload m) = Payload m).
  { apply strings_TrimSpace_plain, forallb_hex_plain, Hall. }
  destruct (hex_Decode_is_Some _ Hall Hev) as [raw Hraw].
  fold (hex_DecodeString (Payload m)) in Hraw.
  repeat (split; [assumption|]).
  exists raw. split; [exact Hraw|].
  pose proof (hex_Decode_Some _ _ Hraw) as [_ Hlen].
  assert (Hne : raw <> []).
  { intros ->. apply Hpay. apply slen_zero. unfold slen, len. rewrite Hlen.
    reflexivity. }
  split; [exact Hne|]. split; [unfold slen, len; lia|].
  unfold extractServiceData16. rewrite Htrim, Hraw.
  destruct (Z.eqb_spec (len raw) 0) as [E|]; [|reflexivity].
  destruct raw; [contradiction|]. unfold len in E. simpl in E. lia.
Qed.

End HandlerFacts.

(** ** Log previews *)

Lemma append_empty_r (s : string) : s ++ "" = s.
Proof.
  induction s as [|a s IH]; [reflexivity|].
  change (String a (s ++ "") = String a s). now rewrite IH.
Qed.

Lemma slen_of_codes (l : list N) :
  Forall (fun c => (c < 256)%N) l -> slen (of_codes l) = len l.
Proof. intros Hl. unfold slen. now rewrite codes_of_codes. Qed.

(** X19: [head] never panics; it returns a prefix of the string, the whole
    string when [n] is not positive, and otherwise a prefix of
    [min(len(s), n)] bytes. *)
Theorem X19_head_is_bounded_prefix (s : string) (n : Z) :
  exists t r,
    head s n = Some t /\
    s = t ++ r /\
    slen t = if 0 <? n then Z.min (slen s) n else slen s.
Proof.
  unfold head.
  destruct (Z.leb_spec n 0) as [Hn|Hn]; simpl.
  { exists s, "". rewrite append_empty_r.
    destruct (Z.ltb_spec 0 n); [lia|auto]. }
  destruct (Z.leb_spec (slen s) n) as [Hs|Hs].
  { exists s, "". rewrite append_empty_r.
    destruct (Z.ltb_spec 0 n); [|lia]. repeat split. lia. }
  pose proof (codes_bounded s) as Hb.
  rewrite slice_in_range by (unfold slen in Hs; lia).
  rewrite Z.sub_0_r. cbn [Z.to_nat drop].
  exists (of_codes (take (Z.to_nat n) (codes s))),
         (of_codes (drop (Z.to_nat n) (codes s))).
  split; [reflexivity|]. split.
  - now rewrite <- of_codes_app, take_drop, of_codes_codes.
  - rewrite slen_of_codes by (now apply Forall_take).
    destruct (Z.ltb_spec 0 n); [|lia].
    unfold slen, len in *. rewrite length_take. lia.
Qed.

(** ** Slugs *)

Lemma last_snoc (l : list N) (c d : N) : List.last (l ++ [c]) d = c.
Proof. apply List.last_last. Qed.

Lemma no_double_dash_snoc (l : list N) (c : N) :
  l <> [] ->
  no_double_dash (l ++ [c])
  = no_double_dash l && negb ((List.last l 0 =? 45) && (c =? 45))%N.
Proof.
  induction l as [|a [|b r] IH]; [contradiction| |]; intros _.
  - simpl. now rewrite andb_true_r.
  - change (no_double_dash ((a :: b :: r) ++ [c]))
      with (negb ((a =? 45) && (b =? 45))%N && no_double_dash ((b :: r) ++ [c])).
    rewrite IH by discriminate.
    change (no_double_dash (a :: b :: r))
      with (negb ((a =? 45) && (b =? 45))%N && no_double_dash (b :: r)).
    change (List.last (a :: b :: r) 0%N) with (List.last (b :: r) 0%N).
    now rewrite andb_assoc.
Qed.

Lemma hd_snoc (l : list N) (c : N) :
  List.hd 0%N (l ++ [c]) = match l with [] => c | a :: _ => a end.
Proof. destruct l; reflexivity. Qed.

Lemma lower_byte_alnum (r : N) :
  ((97 <=? r) && (r <=? 122) || (65 <=? r) && (r <=? 90)
   || (48 <=? r) && (r <=? 57))%N = true ->
  slug_char (lower_byte r) = true /\ lower_byte r <> 45%N.
Proof.
  unfold slug_char, lower_byte.
  destruct (N.leb_spec 97 r), (N.leb_spec r 122), (N.leb_spec 65 r),
    (N.leb_spec r 90), (N.leb_spec 48 r), (N.leb_spec r 57);
    simpl; try discriminate; intros _;
    (split; [|lia]);
    repeat match goal with
      | |- context [(?a <=? ?b)%N] => destruct (N.leb_spec a b); try lia
      | |- context [(?a =? ?b)%N] => destruct (N.eqb_spec a b); try lia
      end; reflexivity.
Qed.

Lemma slug_step_inv (b : list N) (r : N) : slug_inv b -> slug_inv (slug_step b r).
Proof.
  intros (Hall & Hnd & Hhd). unfold slug_step.
  destruct ((97 <=? r) && (r <=? 122) || (65 <=? r) && (r <=? 90)
            || (48 <=? r) && (r <=? 57))%N eqn:Ealnum.
  { destruct (lower_byte_alnum r Ealnum) as [Hc Hne].
    repeat split.
    - rewrite forallb_app, Hall. simpl. now rewrite Hc.
    - destruct b as [|a b']; [reflexivity|].
      rewrite no_double_dash_snoc, Hnd by discriminate.
      destruct (N.eqb_spec (lower_byte r) 45); [contradiction|].
      now rewrite andb_false_r.
    - intros _. rewrite hd_snoc. destruct b; [exact Hne|]. now apply Hhd. }
  destruct ((r =? 32) || (r =? 95) || (r =? 45) || (r =? 47))%N;
    [|repeat split; assumption].
  destruct (Z.eqb_spec (len b) 0) as [E|Hne]; simpl;
    [repeat split; assumption|].
  destruct (N.eqb_spec (List.last b 0%N) 45) as [E|Hl];
    [repeat split; assumption|].
  assert (Hb : b <> []) by (intros ->; apply Hne; reflexivity).
  repeat split.
  - rewrite forallb_app, Hall. reflexivity.
  - rewrite no_double_dash_snoc, Hnd by assumption.
    destruct (N.eqb_spec (List.last b 0%N) 45); [contradiction|reflexivity].
  - intros _. rewrite hd_snoc. destruct b; [contradiction|]. now apply Hhd.
Qed.

Lemma fold_slug_inv (l b : list N) :
  slug_inv b -> slug_inv (fold_left slug_step l b).
Proof.
  revert b. induction l as [|c l IH]; intros b Hb; simpl; [exact Hb|].
  apply IH, slug_step_inv, Hb.
Qed.

Lemma slug_char_bounded (l : list N) :
  forallb slug_char l = true -> Forall (fun c => (c < 256)%N) l.
Proof.
  rewrite forallb_forall, List.Forall_forall. intros H c Hc.
  specialize (H c Hc). unfold slug_char in H.
  destruct (N.leb_spec c 122), (N.leb_spec c 57), (N.eqb_spec c 45);
    try lia; simpl in H; rewrite ?andb_false_r in H; discriminate.
Qed.

(** What the trimming of a trailing dash leaves. *)
Lemma slug_trim_well_formed (b : list N) :
  slug_inv b ->
  let b' := if (len b >? 0) && (List.last b 0 =? 45)%N then removelast b else b in
  b' = [] \/ well_formed_slug b'.
Proof.
  intros (Hall & Hnd & Hhd). cbv zeta.
  induction b as [|a b0 _] using rev_ind; [now left|].
  rewrite last_snoc.
  assert (Hpos : (len (b0 ++ [a]) >? 0) = true).
  { unfold len. rewrite length_app. simpl. apply Z.gtb_lt. lia. }
  rewrite Hpos. simpl andb.
  rewrite forallb_app in Hall. apply andb_prop in Hall as [Hall0 Ha].
  destruct (N.eqb_spec a 45) as [->|Hne].
  - rewrite removelast_last. destruct b0 as [|x b1]; [now left|right].
    rewrite no_double_dash_snoc in Hnd by discriminate.
    apply andb_prop in Hnd as [Hnd0 Hl].
    repeat split; try assumption; try discriminate.
    + rewrite hd_snoc in Hhd. apply Hhd. now destruct b1.
    + intros E. rewrite E in Hl. discriminate.
  - right. repeat split.
    + now destruct b0.
    + rewrite forallb_app, Hall0. exact Ha.
    + exact Hnd.
    + apply Hhd. now destruct b0.
    + now rewrite last_snoc.
Qed.

Lemma slug_codes_well_formed (s : string) :
  well_formed_slug (codes (slugDeviceFamily s)).
Proof.
  unfold slugDeviceFamily. cbv zeta.
  assert (Hinv : slug_inv (fold_left slug_step (codes s) [])).
  { apply fold_slug_inv. repeat split; auto. }
  destruct (slug_trim_well_formed _ Hinv) as [E|Hwf]; cbv zeta in *.
  - rewrite E. cbn [len length Z.of_nat Z.eqb].
    vm_compute. repeat split; discriminate.
  - match type of Hwf with well_formed_slug ?x => set (b' := x) in * end.
    destruct (Z.eqb_spec (len b') 0) as [E|_].
    { destruct Hwf as [Hne _]. destruct b'; [contradiction|].
      unfold len in E. simpl in E. lia. }
    rewrite codes_of_codes; [exact Hwf|].
    apply slug_char_bounded. apply Hwf.
Qed.

(** X20: a slug is never empty and is made of lower-case letters, digits
    and single dashes, with no dash at either end. *)
Theorem X20_slug_well_formed (s : string) :
  well_formed_slug (codes (slugDeviceFamily s)).
Proof.
  destruct (slug_codes_well_formed s) as (Hne & Hall & Hnd & Hhd & Hlast).
  repeat split; assumption.
Qed.

Lemma no_double_dash_prefix (x y : list N) :
  no_double_dash (x ++ y) = true -> no_double_dash x = true.
Proof.
  induction x as [|a [|b r] IH]; [reflexivity|reflexivity|].
  change (no_double_dash ((a :: b :: r) ++ y))
    with (negb ((a =? 45) && (b =? 45))%N && no_double_dash ((b :: r) ++ y)).
  change (no_double_dash (a :: b :: r))
    with (negb ((a =? 45) && (b =? 45))%N && no_double_dash (b :: r)).
  intros H. apply andb_prop in H as [-> H]. now apply IH.
Qed.

(** On a string that is a slug already the loop copies every character. *)
Lemma fold_slug_fixed (l b : list N) :
  forallb slug_char l = true ->
  no_double_dash (b ++ l) = true ->
  List.hd 0%N (b ++ l) <> 45%N ->
  fold_left slug_step l b = (b ++ l)%list.
Proof.
  revert b. induction l as [|c l IH]; intros b Hall Hnd Hhd.
  { now rewrite app_nil_r. }
  cbn [forallb] in Hall. apply andb_prop in Hall as [Hc Hall].
  assert (Hstep : slug_step b c = (b ++ [c])%list).
  { unfold slug_step, slug_char, lower_byte in *.
    destruct (N.eqb_spec c 45) as [->|Hne].
    - simpl. destruct (Z.eqb_spec (len b) 0) as [E|_].
      { destruct b; [simpl in Hhd; contradiction|].
        unfold len in E. simpl in E. lia. }
      simpl. destruct (N.eqb_spec (List.last b 0%N) 45) as [El|_];
        [|reflexivity].
      replace (b ++ 45%N :: l)%list with ((b ++ [45%N]) ++ l)%list in Hnd
        by (now rewrite <- app_assoc).
      apply no_double_dash_prefix in Hnd.
      rewrite no_double_dash_snoc, El in Hnd
        by (intros ->; simpl in Hhd; contradiction).
      rewrite andb_false_r in Hnd. discriminate.
    - rewrite orb_false_r in Hc.
      destruct (N.leb_spec 97 c), (N.leb_spec c 122), (N.leb_spec 65 c),
        (N.leb_spec c 90), (N.leb_spec 48 c), (N.leb_spec c 57);
        simpl in *; try discriminate; try reflexivity; lia. }
  cbn [fold_left]. rewrite Hstep.
  rewrite IH; rewrite <- ?app_assoc; auto.
Qed.

(** X21: a slug is its own slug. *)
Theorem X21_slug_idempotent (s : string) :
  slugDeviceFamily (slugDeviceFamily s) = slugDeviceFamily s.
Proof.
  destruct (slug_codes_well_formed s) as (Hne & Hall & Hnd & Hhd & Hlast).
  set (r := slugDeviceFamily s) in *.
  unfold slugDeviceFamily at 1. cbv zeta.
  rewrite (fold_slug_fixed (codes r) []) by assumption. simpl app.
  destruct (N.eqb_spec (List.last (codes r) 0%N) 45) as [E|_]; [contradiction|].
  rewrite andb_false_r.
  destruct (Z.eqb_spec (len (codes r)) 0) as [E|_].
  { destruct (codes r); [contradiction|]. unfold len in E. simpl in E. lia. }
  apply of_codes_codes.
Qed.

(** ** MAC addresses *)

Lemma codes_dropSeparators (s : string) :
  codes (dropSeparators s)
  = List.filter (fun c => negb (isSeparator c)) (codes s).
Proof.
  unfold dropSeparators. apply codes_of_codes.
  apply List.Forall_forall. intros c Hc. apply List.filter_In in Hc as [Hc _].
  revert c Hc. apply List.Forall_forall, codes_bounded.
Qed.

Lemma filter_idempotent {A} (f : A -> bool) (l : list A) :
  List.filter f (List.filter f l) = List.filter f l.
Proof.
  induction l as [|a l IH]; [reflexivity|]. simpl.
  destruct (f a) eqn:E; [|exact IH]. simpl. now rewrite E, IH.
Qed.

Lemma filter_map_commute {A} (f : A -> bool) (g : A -> A) (l : list A) :
  (forall a, f (g a) = f a) ->
  List.filter f (map g l) = map g (List.filter f l).
Proof.
  intros Hfg. induction l as [|a l IH]; [reflexivity|]. simpl.
  rewrite Hfg. destruct (f a); simpl; now rewrite IH.
Qed.

Lemma isSeparator_lower (c : N) : isSeparator (lower_byte c) = isSeparator c.
Proof.
  unfold isSeparator, lower_byte.
  destruct (N.leb_spec 65 c), (N.leb_spec c 90); simpl; try reflexivity.
  repeat match goal with
    | |- context [(?a =? ?b)%N] => destruct (N.eqb_spec a b); try lia
    end; reflexivity.
Qed.

Lemma isSeparator_upper (c : N) : isSeparator (upper_byte c) = isSeparator c.
Proof.
  unfold isSeparator, upper_byte.
  destruct (N.leb_spec 97 c), (N.leb_spec c 122); simpl; try reflexivity.
  repeat match goal with
    | |- context [(?a =? ?b)%N] => destruct (N.eqb_spec a b); try lia
    end; reflexivity.
Qed.

Lemma lower_byte_idempotent (c : N) : lower_byte (lower_byte c) = lower_byte c.
Proof.
  unfold lower_byte.
  destruct (N.leb_spec 65 c), (N.leb_spec c 90); simpl;
    repeat match goal with
      | |- context [(?a <=? ?b)%N] => destruct (N.leb_spec a b); try lia
      end; reflexivity.
Qed.

Lemma upper_byte_idempotent (c : N) : upper_byte (upper_byte c) = upper_byte c.
Proof.
  unfold upper_byte.
  destruct (N.leb_spec 97 c), (N.leb_spec c 122); simpl;
    repeat match goal with
      | |- context [(?a <=? ?b)%N] => destruct (N.leb_spec a b); try lia
      end; reflexivity.
Qed.

Lemma lower_byte_ascii (c : N) : (c < 128 -> lower_byte c < 128)%N.
Proof.
  unfold lower_byte. destruct (N.leb_spec 65 c), (N.leb_spec c 90); simpl; lia.
Qed.

Lemma upper_byte_ascii (c : N) : (c < 128 -> upper_byte c < 128)%N.
Proof.
  unfold upper_byte. destruct (N.leb_spec 97 c), (N.leb_spec c 122); simpl; lia.
Qed.

(** All-ASCII byte lists. *)
Lemma isASCII_Forall (s : string) :
  isASCII s = true <-> Forall (fun c => (c < 128)%N) (codes s).
Proof.
  unfold isASCII. rewrite forallb_forall, List.Forall_forall.
  split; intros H c Hc; specialize (H c Hc).
  - now apply N.ltb_lt.
  - now apply N.ltb_lt.
Qed.

Lemma Forall_ascii_bounded (l : list N) :
  Forall (fun c => (c < 128)%N) l -> Forall (fun c => (c < 256)%N) l.
Proof.
  intros H. eapply Forall_impl; [exact H|]. intros c Hc. simpl in *. lia.
Qed.

Lemma isASCII_of_codes (l : list N) :
  Forall (fun c => (c < 128)%N) l -> isASCII (of_codes l) = true.
Proof.
  intros Hl. apply isASCII_Forall.
  now rewrite codes_of_codes by (now apply Forall_ascii_bounded).
Qed.

Lemma Forall_filter_keep {A} (P : A -> Prop) (f : A -> bool) (l : list A) :
  Forall P l -> Forall P (List.filter f l).
Proof.
  rewrite !List.Forall_forall. intros H a Ha.
  apply List.filter_In in Ha as [Ha _]. auto.
Qed.

Lemma Forall_map_ascii (g : N -> N) (l : list N) :
  (forall c, (c < 128 -> g c < 128)%N) ->
  Forall (fun c => (c < 128)%N) l -> Forall (fun c => (c < 128)%N) (map g l).
Proof.
  intros Hg Hl. induction Hl; simpl; constructor; auto.
Qed.

Lemma isHexDigit_not_separator (c : N) : isHexDigit c = true -> isSeparator c = false.
Proof.
  unfold isHexDigit, isSeparator.
  destruct (N.leb_spec 48 c), (N.leb_spec c 57), (N.leb_spec 97 c),
    (N.leb_spec c 102), (N.leb_spec 65 c), (N.leb_spec c 70);
    simpl; try discriminate; intros _;
    repeat match goal with
      | |- context [(?a =? ?b)%N] => destruct (N.eqb_spec a b); try lia
      end; reflexivity.
Qed.

Lemma filter_hex_digits (l : list N) :
  forallb isHexDigit l = true ->
  List.filter (fun c => negb (isSeparator c)) l = l.
Proof.
  induction l as [|c l IH]; [reflexivity|]. cbn [forallb List.filter].
  intros H. apply andb_prop in H as [Hc H].
  now rewrite (isHexDigit_not_separator c Hc), IH.
Qed.

Lemma filter_mac_chars (l : list N) :
  forallb mac_char l = true ->
  forallb isHexDigit (List.filter (fun c => negb (isSeparator c)) l) = true.
Proof.
  induction l as [|c l IH]; [reflexivity|]. cbn [forallb List.filter].
  intros H. apply andb_prop in H as [Hc H]. unfold mac_char in Hc.
  destruct (isSeparator c); simpl; [now apply IH|].
  rewrite orb_false_r in Hc. now rewrite Hc, IH.
Qed.

(** A MAC character is a space, which is a separator, or stops the trim. *)
Lemma mac_char_space_or_plain (c : N) :
  mac_char c = true ->
  asciiSpace c = true /\ isSeparator c = true \/ plain c.
Proof.
  unfold mac_char. intros H. apply orb_prop in H as [H|H].
  - right. now apply isHexDigit_plain.
  - unfold isSeparator in H. unfold plain, asciiSpace.
    destruct (N.eqb_spec c 58) as [E|]; [right; rewrite E; split; [reflexivity|lia]|].
    destruct (N.eqb_spec c 45) as [E|]; [right; rewrite E; split; [reflexivity|lia]|].
    destruct (N.eqb_spec c 46) as [E|]; [right; rewrite E; split; [reflexivity|lia]|].
    destruct (N.eqb_spec c 32) as [E|]; [left; rewrite E; split; reflexivity|].
    discriminate.
Qed.

Lemma filter_trimLeft_mac (l : list N) :
  forallb mac_char l = true ->
  List.filter (fun c => negb (isSeparator c)) (trimLeft l)
  = List.filter (fun c => negb (isSeparator c)) l /\
  forallb mac_char (trimLeft l) = true.
Proof.
  induction l as [|c l IH]; [auto|]. intros H.
  pose proof H as Hall. cbn [forallb] in H. apply andb_prop in H as [Hc H].
  destruct (mac_char_space_or_plain c Hc) as [[Hsp Hsep]|Hp].
  - cbn [trimLeft List.filter]. rewrite Hsp, Hsep. simpl. now apply IH.
  - rewrite trimLeft_plain by assumption. auto.
Qed.

Lemma filter_trimLeftRev_mac (l : list N) :
  forallb mac_char l = true ->
  List.filter (fun c => negb (isSeparator c)) (trimLeftRev l)
  = List.filter (fun c => negb (isSeparator c)) l.
Proof.
  induction l as [|c l IH]; [auto|]. intros H.
  cbn [forallb] in H. apply andb_prop in H as [Hc H].
  destruct (mac_char_space_or_plain c Hc) as [[Hsp Hsep]|Hp].
  - cbn [trimLeftRev List.filter]. rewrite Hsp, Hsep. simpl. now apply IH.
  - now rewrite trimLeftRev_plain by assumption.
Qed.

Lemma forallb_rev {A} (f : A -> bool) (l : list A) :
  forallb f (rev l) = forallb f l.
Proof.
  induction l as [|a l IH]; [reflexivity|]. simpl.
  rewrite forallb_app, IH. simpl. rewrite andb_true_r. apply andb_comm.
Qed.

Lemma filter_rev_commute {A} (f : A -> bool) (l : list A) :
  List.filter f (rev l) = rev (List.filter f l).
Proof.
  induction l as [|a l IH]; [reflexivity|]. simpl.
  rewrite List.filter_app, IH. simpl.
  destruct (f a); simpl; [reflexivity|]. now rewrite app_nil_r.
Qed.

(** Trimming removes nothing but spaces from a MAC text, and those are
    separators. *)
Lemma dropSeparators_TrimSpace_mac (s : string) :
  forallb mac_char (codes s) = true ->
  dropSeparators (strings_TrimSpace s) = dropSeparators s.
Proof.
  intros H. unfold dropSeparators at 1. rewrite codes_TrimSpace.
  destruct (filter_trimLeft_mac _ H) as [Hl Hm].
  rewrite filter_rev_commute, filter_trimLeftRev_mac
    by (now rewrite forallb_rev).
  rewrite filter_rev_commute, rev_involutive, Hl. reflexivity.
Qed.

Lemma hex_text_fixed (h : string) :
  forallb isHexDigit (codes h) = true ->
  strings_TrimSpace h = h /\ dropSeparators h = h.
Proof.
  intros H. split.
  - apply strings_TrimSpace_plain, forallb_hex_plain, H.
  - unfold dropSeparators. rewrite filter_hex_digits by assumption.
    apply of_codes_codes.
Qed.

Lemma lowerhex_isHexDigit (b : byte) :
  isHexDigit (lowerhex (Byte.to_N b / 16)) = true /\
  isHexDigit (lowerhex (Byte.to_N b mod 16)) = true.
Proof.
  destruct (hex_digits_byte b) as (Hhi & Hlo & _).
  split; apply isHexDigit_fromHexChar; eauto.
Qed.

Lemma hex_Encode_digits (raw : list byte) :
  forallb isHexDigit (hex_Encode raw) = true.
Proof.
  induction raw as [|b raw IH]; [reflexivity|].
  destruct (lowerhex_isHexDigit b) as [Hhi Hlo].
  change (hex_Encode (b :: raw))
    with (lowerhex (Byte.to_N b / 16) :: lowerhex (Byte.to_N b mod 16)
            :: hex_Encode raw).
  cbn [forallb]. now rewrite Hhi, Hlo, IH.
Qed.

Lemma codes_hex_EncodeToString (raw : list byte) :
  codes (hex_EncodeToString raw) = hex_Encode raw.
Proof.
  unfold hex_EncodeToString. apply codes_of_codes.
  eapply Forall_impl; [apply hex_Encode_plain|]. intros c [_ Hc]. simpl. lia.
Qed.

Lemma fromHexChar_lower (c : N) : fromHexChar (lower_byte c) = fromHexChar c.
Proof.
  unfold fromHexChar, lower_byte.
  destruct (N.leb_spec 65 c), (N.leb_spec c 90); simpl; try reflexivity.
  all: repeat match goal with
         | |- context [(?a <=? ?b)%N] => destruct (N.leb_spec a b); try lia
         end; simpl; try reflexivity; f_equal; lia.
Qed.

Lemma fromHexChar_upper (c : N) : fromHexChar (upper_byte c) = fromHexChar c.
Proof.
  unfold fromHexChar, upper_byte.
  destruct (N.leb_spec 97 c), (N.leb_spec c 122); simpl; try reflexivity.
  all: repeat match goal with
         | |- context [(?a <=? ?b)%N] => destruct (N.leb_spec a b); try lia
         end; simpl; try reflexivity; f_equal; lia.
Qed.

(** [hex.Decode] does not look at the case of the digits. *)
Lemma hex_Decode_map (g : N -> N) (l : list N) :
  (forall c, fromHexChar (g c) = fromHexChar c) ->
  hex_Decode (map g l) = hex_Decode l.
Proof.
  intros Hg. remember (length l) as n eqn:Hn. revert l Hn.
  induction n as [n IH] using lt_wf_ind. intros l ->.
  destruct l as [|p [|q l]]; [reflexivity|reflexivity|].
  cbn [map hex_Decode]. rewrite !Hg.
  now rewrite (IH (length l) ltac:(simpl; lia) l eq_refl).
Qed.

Section MacFacts.

Variable unicode_ToUpper : string -> string.
Variable unicode_ToLower : string -> string.

Lemma codes_ToLower_ascii (s : string) :
  isASCII s = true ->
  codes (strings_ToLower unicode_ToLower s) = map lower_byte (codes s) /\
  isASCII (strings_ToLower unicode_ToLower s) = true.
Proof.
  intros H. unfold strings_ToLower. rewrite H.
  apply isASCII_Forall in H.
  pose proof (Forall_map_ascii lower_byte _ lower_byte_ascii H) as Hm.
  split; [|now apply isASCII_of_codes].
  now rewrite codes_of_codes by (now apply Forall_ascii_bounded).
Qed.

Lemma codes_ToUpper_ascii (s : string) :
  isASCII s = true ->
  codes (strings_ToUpper unicode_ToUpper s) = map upper_byte (codes s) /\
  isASCII (strings_ToUpper unicode_ToUpper s) = true.
Proof.
  intros H. unfold strings_ToUpper. rewrite H.
  apply isASCII_Forall in H.
  pose proof (Forall_map_ascii upper_byte _ upper_byte_ascii H) as Hm.
  split; [|now apply isASCII_of_codes].
  now rewrite codes_of_codes by (now apply Forall_ascii_bounded).
Qed.

Lemma isASCII_dropSeparators (s : string) :
  isASCII s = true -> isASCII (dropSeparators s) = true.
Proof.
  intros H. apply isASCII_of_codes, Forall_filter_keep.
  now apply isASCII_Forall.
Qed.

Lemma codes_inj (s1 s2 : string) : codes s1 = codes s2 -> s1 = s2.
Proof.
  intros H. rewrite <- (of_codes_codes s1), <- (of_codes_codes s2).
  now rewrite H.
Qed.

(** A cleaned and lowered (or raised) MAC is clean and lowered (raised). *)
Lemma lowered_fixed (x : string) :
  isASCII x = true ->
  let y := strings_ToLower unicode_ToLower (dropSeparators x) in
  isASCII y = true /\ dropSeparators y = y /\
  strings_ToLower unicode_ToLower y = y.
Proof.
  intros Hx. cbv zeta.
  destruct (codes_ToLower_ascii _ (isASCII_dropSeparators x Hx)) as [Hc Ha].
  set (y := strings_ToLower unicode_ToLower (dropSeparators x)) in *.
  rewrite codes_dropSeparators in Hc.
  assert (Hd : dropSeparators y = y).
  { apply codes_inj. rewrite codes_dropSeparators, Hc.
    rewrite filter_map_commute by (intros; now rewrite isSeparator_lower).
    now rewrite filter_idempotent. }
  split; [exact Ha|]. split; [exact Hd|].
  apply codes_inj. rewrite (proj1 (codes_ToLower_ascii y Ha)), Hc.
  rewrite map_map. apply map_ext. intros c. apply lower_byte_idempotent.
Qed.

Lemma raised_fixed (x : string) :
  isASCII x = true ->
  let y := strings_ToUpper unicode_ToUpper (dropSeparators x) in
  isASCII y = true /\ dropSeparators y = y /\
  strings_ToUpper unicode_ToUpper y = y.
Proof.
  intros Hx. cbv zeta.
  destruct (codes_ToUpper_ascii _ (isASCII_dropSeparators x Hx)) as [Hc Ha].
  set (y := strings_ToUpper unicode_ToUpper (dropSeparators x)) in *.
  rewrite codes_dropSeparators in Hc.
  assert (Hd : dropSeparators y = y).
  { apply codes_inj. rewrite codes_dropSeparators, Hc.
    rewrite filter_map_commute by (intros; now rewrite isSeparator_upper).
    now rewrite filter_idempotent. }
  split; [exact Ha|]. split; [exact Hd|].
  apply codes_inj. rewrite (proj1 (codes_ToUpper_ascii y Ha)), Hc.
  rewrite map_map. apply map_ext. intros c. apply upper_byte_idempotent.
Qed.

(** X22: on a message whose two MAC texts are ASCII, [normalize] is
    idempotent. *)
Theorem X22_normalize_idempotent (m : MQTTMessage) :
  isASCII (DeviceMAC m) = true ->
  isASCII (GatewayMAC m) = true ->
  normalize unicode_ToUpper unicode_ToLower
    (normalize unicode_ToUpper unicode_ToLower m)
  = normalize unicode_ToUpper unicode_ToLower m.
Proof.
  intros Hd Hg. unfold normalize.
  cbn [MessageID GatewayMAC GatewayHW DeviceMAC Payload QoS Timestamp RSSI].
  destruct (lowered_fixed _ Hd) as (_ & Hd1 & Hd2).
  destruct (raised_fixed _ Hg) as (_ & Hg1 & Hg2).
  cbv zeta in *. rewrite Hd1, Hd2, Hg1, Hg2, strings_TrimSpace_idempotent.
  reflexivity.
Qed.

(** The decoding step of [macHexToBytea], on the cleaned text. *)
Lemma macHexToBytea_mac_chars (s : string) :
  forallb mac_char (codes s) = true ->
  macHexToBytea s
  = match hex_DecodeString (dropSeparators s) with
    | None => ([], Some (InvalidHexMac (dropSeparators s)))
    | Some b =>
        if negb (len b =? 6) then ([], Some (MacLength (len b))) else (b, None)
    end.
Proof.
  intros H. unfold macHexToBytea. cbv zeta.
  now rewrite dropSeparators_TrimSpace_mac.
Qed.

(** X23: the bytes of a MAC, written as lower-case hexadecimal digits, are
    read back when there are six of them; any other number of bytes is
    refused with that number. *)
Theorem X23_mac_round_trip (b : list byte) :
  macHexToBytea (hex_EncodeToString b)
  = if len b =? 6 then (b, None) else ([], Some (MacLength (len b))).
Proof.
  pose proof (hex_Encode_digits b) as Hd.
  rewrite <- codes_hex_EncodeToString in Hd.
  destruct (hex_text_fixed _ Hd) as [Ht Hs].
  unfold macHexToBytea. cbv zeta. rewrite Ht, Hs.
  rewrite <- Ht at 1. rewrite hex_DecodeString_EncodeToString.
  now destruct (len b =? 6).
Qed.

(** X24: in a MAC text made of hexadecimal digits and of the separators
    colon, dash, dot and space, the separators do not count, wherever they
    stand. *)
Theorem X24_mac_separators_ignored (s : string) :
  forallb mac_char (codes s) = true ->
  macHexToBytea s = macHexToBytea (dropSeparators s).
Proof.
  intros H. rewrite macHexToBytea_mac_chars by assumption.
  assert (Hh : forallb isHexDigit (codes (dropSeparators s)) = true).
  { rewrite codes_dropSeparators. now apply filter_mac_chars. }
  destruct (hex_text_fixed _ Hh) as [Ht Hs].
  unfold macHexToBytea. cbv zeta. now rewrite Ht, Hs.
Qed.

Lemma mac_chars_ascii (s : string) :
  forallb mac_char (codes s) = true -> isASCII s = true.
Proof.
  unfold isASCII. rewrite !forallb_forall. intros H c Hc.
  destruct (mac_char_space_or_plain c (H c Hc)) as [[Hsp _]|[_ Hlt]].
  - unfold asciiSpace in Hsp. apply N.ltb_lt.
    destruct (N.leb_spec c 13), (N.eqb_spec c 32); try lia.
    all: try (rewrite andb_false_r in Hsp; discriminate).
  - now apply N.ltb_lt.
Qed.

Lemma isHexDigit_map (g : N -> N) (l : list N) :
  (forall c, fromHexChar (g c) = fromHexChar c) ->
  forallb isHexDigit l = true -> forallb isHexDigit (map g l) = true.
Proof.
  intros Hg. induction l as [|c l IH]; [reflexivity|]. cbn [map forallb].
  intros H. apply andb_prop in H as [Hc H]. rewrite IH by assumption.
  apply isHexDigit_fromHexChar in Hc. rewrite <- Hg in Hc.
  apply isHexDigit_fromHexChar in Hc. now rewrite Hc.
Qed.

Lemma hex_digits_mac_chars (l : list N) :
  forallb isHexDigit l = true -> forallb mac_char l = true.
Proof.
  rewrite !forallb_forall. intros H c Hc. unfold mac_char.
  now rewrite (H c Hc).
Qed.

(** Two MAC texts with the same digits up to case. *)
Lemma macHexToBytea_same_digits (s1 s2 : string) :
  forallb mac_char (codes s1) = true ->
  forallb mac_char (codes s2) = true ->
  hex_DecodeString (dropSeparators s1) = hex_DecodeString (dropSeparators s2) ->
  fst (macHexToBytea s1) = fst (macHexToBytea s2) /\
  (snd (macHexToBytea s1) = None <-> snd (macHexToBytea s2) = None).
Proof.
  intros H1 H2 Heq. rewrite !macHexToBytea_mac_chars, Heq by assumption.
  destruct (hex_DecodeString (dropSeparators s2)) as [b|]; simpl.
  - destruct (len b =? 6); simpl; tauto.
  - split; [reflexivity|]. split; discriminate.
Qed.

(** X25: [normalize] keeps the bytes of the MACs: for MAC texts of
    hexadecimal digits and separators, [macHexToBytea] returns for the
    normalized device and gateway MAC the bytes it returns for the
    original, and fails on the one exactly when it fails on the other. *)
Theorem X25_normalize_keeps_mac_bytes (m : MQTTMessage) :
  forallb mac_char (codes (DeviceMAC m)) = true ->
  forallb mac_char (codes (GatewayMAC m)) = true ->
  (fst (macHexToBytea (DeviceMAC (normalize unicode_ToUpper unicode_ToLower m)))
   = fst (macHexToBytea (DeviceMAC m)) /\
   (snd (macHexToBytea (DeviceMAC (normalize unicode_ToUpper unicode_ToLower m)))
    = None
    <-> snd (macHexToBytea (DeviceMAC m)) = None)) /\
  (fst (macHexToBytea (GatewayMAC (normalize unicode_ToUpper unicode_ToLower m)))
   = fst (macHexToBytea (GatewayMAC m)) /\
   (snd (macHexToBytea (GatewayMAC (normalize unicode_ToUpper unicode_ToLower m)))
    = None
    <-> snd (macHexToBytea (GatewayMAC m)) = None)).
Proof.
  intros Hd Hg. unfold normalize.
  cbn [MessageID GatewayMAC GatewayHW DeviceMAC Payload QoS Timestamp RSSI].
  split.
  - pose proof (mac_chars_ascii _ Hd) as Ha.
    destruct (lowered_fixed _ Ha) as (_ & Hfix & _). cbv zeta in Hfix.
    destruct (codes_ToLower_ascii _ (isASCII_dropSeparators _ Ha)) as [Hc _].
    rewrite codes_dropSeparators in Hc.
    pose proof (filter_mac_chars _ Hd) as Hh.
    apply macHexToBytea_same_digits; [|exact Hd|].
    + rewrite Hc. apply hex_digits_mac_chars.
      apply isHexDigit_map; [apply fromHexChar_lower|exact Hh].
    + rewrite Hfix. unfold hex_DecodeString.
      rewrite Hc, codes_dropSeparators. apply hex_Decode_map, fromHexChar_lower.
  - pose proof (mac_chars_ascii _ Hg) as Ha.
    destruct (raised_fixed _ Ha) as (_ & Hfix & _). cbv zeta in Hfix.
    destruct (codes_ToUpper_ascii _ (isASCII_dropSeparators _ Ha)) as [Hc _].
    rewrite codes_dropSeparators in Hc.
    pose proof (filter_mac_chars _ Hg) as Hh.
    apply macHexToBytea_same_digits; [|exact Hg|].
    + rewrite Hc. apply hex_digits_mac_chars.
      apply isHexDigit_map; [apply fromHexChar_upper|exact Hh].
    + rewrite Hfix. unfold hex_DecodeString.
      rewrite Hc, codes_dropSeparators. apply hex_Decode_map, fromHexChar_upper.
Qed.

End MacFacts.

(** ** The further properties at concrete inputs *)

(** The scenario advertisement: the match is the structure at offset 3. *)
Lemma X1_scanner_match_sound_witness :
  exists raw j lb lsb msb,
    hex_DecodeString
      (strings_TrimSpace "0201060916ABFE7005009601F40BB801AABBCCDDEEFF")
    = Some raw /\
    walk raw j /\
    idx raw j = Some lb /\ idx raw (j + 1) = Some x16 /\
    4 <= int lb /\ j + 1 + int lb <= len raw /\
    idx raw (j + 2) = Some lsb /\ idx raw (j + 3) = Some msb /\
    "FEAB" = fmt_02X msb ++ fmt_02X lsb /\
    slice raw (j + 4) (j + 1 + int lb) = Some [x70; x05; x00; x96; x01; xf4].
Proof.
  apply (X1_scanner_match_sound no_unicode_upper
           "0201060916ABFE7005009601F40BB801AABBCCDDEEFF" "FEAB" x70
           [x05; x00; x96; x01; xf4]).
  reflexivity.
Defined.

(** A structure 03 16 AB FE, too short to carry a frame type, hides the
    well-formed one that follows it. *)
Lemma X2_scanner_short_service_data_witness :
  extractServiceData16 no_unicode_upper "0201060316ABFE0416ABFE70"
  = Some notFound.
Proof.
  apply (X2_scanner_short_service_data no_unicode_upper
           "0201060316ABFE0416ABFE70"
           [x02; x01; x06; x03; x16; xab; xfe; x04; x16; xab; xfe; x70] 3 x03).
  - reflexivity.
  - apply (walk_next _ 0 x02 x01).
    + apply walk_start.
    + reflexivity.
    + reflexivity.
    + vm_compute. discriminate.
    + vm_compute. discriminate.
    + discriminate.
  - reflexivity.
  - reflexivity.
  - vm_compute. reflexivity.
Defined.

(** The same match with a malformed structure appended. *)
Lemma X3_scanner_first_match_witness :
  extractServiceData16 no_unicode_upper "0416ABFE70FF00"
  = Some ("FEAB", x70, [], true).
Proof.
  apply (X3_scanner_first_match no_unicode_upper "0416ABFE70" "0416ABFE70FF00"
           "FEAB" [x04; x16; xab; xfe; x70] [xff; x00] x70 []).
  - reflexivity.
  - reflexivity.
  - reflexivity.
Defined.

(** Flags, then the service data of UUID FEAB with frame 0x70 and a body of
    three bytes, then two more bytes. *)
Lemma X4_scanner_inverts_framing_witness :
  extractServiceData16 no_unicode_upper "0201060716ABFE70050096FFFF"
  = Some ("FEAB", x70, [x05; x00; x96], true).
Proof.
  apply (X4_scanner_inverts_framing no_unicode_upper
           "0201060716ABFE70050096FFFF" [x02; x01; x06] [xff; xff]
           [x05; x00; x96] xab xfe x70).
  - reflexivity.
  - apply (walk_next _ 0 x02 x01).
    + apply walk_start.
    + reflexivity.
    + reflexivity.
    + vm_compute. discriminate.
    + vm_compute. discriminate.
    + discriminate.
  - vm_compute. discriminate.
Defined.

(** The bytes FF 9C at cursor 0. *)
Lemma X6_fixed_width_reads_witness :
  exists (u s : Z) (ok : bool),
    u16be [xff; x9c] 0 = Some (u, ok, if ok then 0 + 2 else 0) /\
    i16be [xff; x9c] 0 = Some (s, ok, if ok then 0 + 2 else 0) /\
    (ok = true <-> 0 + 2 <= len [xff; x9c]) /\
    0 <= u < 65536 /\
    -32768 <= s < 32768 /\
    s = int16 u /\
    (ok = false -> u = 0 /\ s = 0).
Proof.
  apply (X6_fixed_width_reads [xff; x9c] 0). lia.
Defined.

(** The five bytes of the scenario: F4 is taken for the device type. *)
Lemma X8_TH_device_type_misaligned_witness :
  exists out,
    buildTH no_unicode_upper 1700000000000 "c3a1b2d4e5f6" "cold room 2"
      (Some (-67)) [x05; x00; x96; x01; xf4]
    = Some (Some out, None) /\
    out !! "device_type" = Some (AInt 244).
Proof.
  apply (X8_TH_device_type_misaligned no_unicode_upper 1700000000000
           "c3a1b2d4e5f6" "cold room 2" (Some (-67))
           [x05; x00; x96; x01; xf4]).
  right. left. reflexivity.
Defined.

(** A complete frame: 5 steps, 15.0 degrees, 50.0 percent, 3000 mV, type 1,
    then the embedded MAC. *)
Lemma X9_TH_full_frame_witness :
  exists out,
    buildTH no_unicode_upper 1700000000000 "c3a1b2d4e5f6" "cold room 2"
      (Some (-67))
      [x00; x05; x00; x96; x01; xf4; x0b; xb8; x01;
       xaa; xbb; xcc; xdd; xee; xff]
    = Some (Some out, None) /\
    out !! "adv_interval_steps" = Some (AInt 5) /\
    out !! "adv_interval_ms" = Some (AInt 500) /\
    out !! "temperature" = Some (AFloat64 15) /\
    out !! "humidity" = Some (AFloat64 50) /\
    out !! "batt_vol" = Some (AInt 3000) /\
    out !! "device_type" = Some (AInt 1).
Proof.
  apply (X9_TH_full_frame no_unicode_upper 1700000000000 "c3a1b2d4e5f6"
           "cold room 2" (Some (-67))
           [x00; x05; x00; x96; x01; xf4; x0b; xb8; x01;
            xaa; xbb; xcc; xdd; xee; xff]).
  unfold len. simpl. lia.
Defined.

(** A complete Info frame. *)
Lemma X12_Info_full_frame_witness :
  exists out,
    buildInfo no_unicode_upper 1700000000000 "c3a1b2d4e5f6" "cold room 2"
      (Some (-67))
      [x00; x05; x0b; xb8; x05; x81; xaa; xbb; xcc; xdd; xee; xff; x00; x07]
    = Some (Some out, None) /\
    out !! "adv_interval_steps" = Some (AInt 5) /\
    out !! "adv_interval_ms" = Some (AInt 500) /\
    out !! "batt_vol" = Some (AInt 3000) /\
    out !! "device_prop" = Some (AInt 5) /\
    out !! "device_prop_bits" = Some (AString "00000101") /\
    out !! "switch_status" = Some (AInt 129) /\
    out !! "switch_status_bits" = Some (AString "10000001") /\
    out !! "firmware_ver" = Some (AString "V0.0.7").
Proof.
  apply (X12_Info_full_frame no_unicode_upper 1700000000000 "c3a1b2d4e5f6"
           "cold room 2" (Some (-67))
           [x00; x05; x0b; xb8; x05; x81; xaa; xbb; xcc; xdd; xee; xff;
            x00; x07]).
  unfold len. simpl. lia.
Defined.

(** An Info payload of six bytes, with device property 0x05 and switch
    status 0x81: the strings are 00000101 and 10000001. *)
Lemma X13_Info_bits_round_trip_witness :
  exists out,
    buildInfo no_unicode_upper 1700000000000 "c3a1b2d4e5f6" "cold room 2" None
      [x00; x05; x0b; xb8; x05; x81]
    = Some (Some out, None) /\
    out !! "device_prop" = Some (AInt 5) /\
    out !! "device_prop_bits" = Some (AString "00000101") /\
    out !! "switch_status" = Some (AInt 129) /\
    out !! "switch_status_bits" = Some (AString "10000001") /\
    (forall v, out !! "device_prop" = Some (AInt v) ->
       exists s, out !! "device_prop_bits" = Some (AString s) /\
                 String.length s = 8%nat /\ binary_digits s = true /\
                 binary_value s = v) /\
    (forall v, out !! "switch_status" = Some (AInt v) ->
       exists s, out !! "switch_status_bits" = Some (AString s) /\
                 String.length s = 8%nat /\ binary_digits s = true /\
                 binary_value s = v).
Proof.
  eexists. split; [reflexivity|].
  do 4 (split; [reflexivity|]).
  apply (X13_Info_bits_round_trip no_unicode_upper 1700000000000
           "c3a1b2d4e5f6" "cold room 2" None [x00; x05; x0b; xb8; x05; x81]).
  reflexivity.
Defined.

(** The reading of a Temperature & Humidity frame, for hardware H4 Pro. *)
Lemma X15_event_type_of_reading_witness :
  exists out,
    ParseH4ProToOutput no_unicode_upper x70 [x00; x05; x00; x96] 1700000000000
      "c3a1b2d4e5f6" "cold room 2" None
    = Some (Some out, None) /\
    deriveEventType "H4 Pro" x70 (Some out) = "h4pro-t&h".
Proof.
  eexists. split; [reflexivity|].
  apply (X15_event_type_of_reading no_unicode_upper 1700000000000
           "c3a1b2d4e5f6" "cold room 2" None "H4 Pro" x70 [x00; x05; x00; x96]).
  reflexivity.
Defined.

(** A message as the gateway posts it. *)
Lemma X18_validated_payload_decodes_witness :
  0 < 42 /\ 0 < 1700000000000 /\ "c3a1b2d4e5f6" <> "" /\
  strings_TrimSpace "0416ABFE70" = "0416ABFE70" /\
  exists raw,
    hex_DecodeString "0416ABFE70" = Some raw /\
    raw <> [] /\
    slen "0416ABFE70" = 2 * len raw /\
    extractServiceData16 no_unicode_upper "0416ABFE70"
    = scanAD no_unicode_upper raw 0.
Proof.
  apply (X18_validated_payload_decodes no_unicode_upper
           {| MessageID := 42; GatewayMAC := "AABBCCDDEEFF"; GatewayHW := "MKGW";
              DeviceMAC := "c3a1b2d4e5f6"; Payload := "0416ABFE70"; QoS := 0;
              Timestamp := 1700000000000; RSSI := Some (-67) |}).
  reflexivity.
Defined.

(** MAC texts with separators and mixed case. *)
Lemma X22_normalize_idempotent_witness :
  normalize no_unicode_upper no_unicode_lower
    (normalize no_unicode_upper no_unicode_lower
       {| MessageID := 42; GatewayMAC := "aa-bb-cc-dd-ee-ff"; GatewayHW := "MKGW";
          DeviceMAC := "C3:A1:B2:D4:E5:F6"; Payload := " 0416ABFE70 "; QoS := 0;
          Timestamp := 1700000000000; RSSI := None |})
  = normalize no_unicode_upper no_unicode_lower
      {| MessageID := 42; GatewayMAC := "aa-bb-cc-dd-ee-ff"; GatewayHW := "MKGW";
         DeviceMAC := "C3:A1:B2:D4:E5:F6"; Payload := " 0416ABFE70 "; QoS := 0;
         Timestamp := 1700000000000; RSSI := None |}.
Proof.
  apply (X22_normalize_idempotent no_unicode_upper no_unicode_lower).
  - reflexivity.
  - reflexivity.
Defined.

(** Every separator, in one text. *)
Lemma X24_mac_separators_ignored_witness :
  macHexToBytea " C3:a1-B2.d4 e5:F6 " = macHexToBytea "C3a1B2d4e5F6".
Proof.
  apply (X24_mac_separators_ignored " C3:a1-B2.d4 e5:F6 "). reflexivity.
Defined.

(** The device MAC with colons and the gateway MAC with dashes. *)
Lemma X25_normalize_keeps_mac_bytes_witness :
  (fst (macHexToBytea "c3a1b2d4e5f6") = fst (macHexToBytea "C3:A1:B2:D4:E5:F6") /\
   (snd (macHexToBytea "c3a1b2d4e5f6") = None
    <-> snd (macHexToBytea "C3:A1:B2:D4:E5:F6") = None)) /\
  (fst (macHexToBytea "AABBCCDDEEFF") = fst (macHexToBytea "aa-bb-cc-dd-ee-ff") /\
   (snd (macHexToBytea "AABBCCDDEEFF") = None
    <-> snd (macHexToBytea "aa-bb-cc-dd-ee-ff") = None)).
Proof.
  apply (X25_normalize_keeps_mac_bytes no_unicode_upper no_unicode_lower
           {| MessageID := 42; GatewayMAC := "aa-bb-cc-dd-ee-ff"; GatewayHW := "MKGW";
              DeviceMAC := "C3:A1:B2:D4:E5:F6"; Payload := "0416ABFE70"; QoS := 0;
              Timestamp := 1700000000000; RSSI := None |}).
  - reflexivity.
  - reflexivity.
Defined.
